(** * AI-Recipe-Generator: the recipe extraction pipeline of [pages/api/generate.ts]

    A shallow embedding of the API route [handler] and of its fallback
    [extractRecipeFromText], with the JavaScript built-ins they call
    (string methods, regular expressions, [JSON.parse], property reads)
    modelled next to them.  The outbound [fetch] is the one effect that is
    kept: a run of the handler either answers at once or asks for it.
    Calls to [console.error] are left out.  The page that calls the route,
    [pages/index.tsx], is modelled in [Module Home]. *)

From Stdlib Require Import List NArith ZArith Bool String Ascii Lia.
From Stdlib Require Import DecimalString.
Import ListNotations.

Local Open Scope N_scope.

(* ================================================================== *)
(** ** JavaScript strings *)
(* ================================================================== *)

(** A JavaScript string is a sequence of UTF-16 code units. *)
Abbreviation char16 := N (only parsing).
Abbreviation jsstring := (list N) (only parsing).

(** An ASCII literal of the source, as code units. *)
Definition lit (s : string) : jsstring :=
  List.map N_of_ascii (list_ascii_of_string s).

Definition str_eqb (a b : jsstring) : bool :=
  if list_eq_dec N.eq_dec a b then true else false.

(** [s] used as a condition: the empty string is falsy. *)
Definition str_truthy (s : jsstring) : bool :=
  match s with [] => false | _ => true end.

Definition in_range (lo hi c : char16) : bool := (lo <=? c) && (c <=? hi).

(** Line terminators: LF, CR, LS, PS. *)
Definition is_line_terminator (c : char16) : bool :=
  (c =? 10) || (c =? 13) || (c =? 8232) || (c =? 8233).

(** White space as [trim] and the class [\s] see it: WhiteSpace and
    LineTerminator of the language specification. *)
Definition is_space (c : char16) : bool :=
  in_range 9 13 c || (c =? 32) || (c =? 160) || (c =? 5760)
  || in_range 8192 8202 c || (c =? 8232) || (c =? 8233) || (c =? 8239)
  || (c =? 8287) || (c =? 12288) || (c =? 65279).

Definition is_digit (c : char16) : bool := in_range 48 57 c.

Fixpoint drop_while (p : char16 -> bool) (s : jsstring) : jsstring :=
  match s with
  | c :: r => if p c then drop_while p r else s
  | [] => []
  end.

(** [String.prototype.trim]. *)
Definition trim (s : jsstring) : jsstring :=
  rev (drop_while is_space (rev (drop_while is_space s))).

(** [s.split('\n')]: the pieces between line feeds; never an empty array. *)
Fixpoint split_nl (s : jsstring) : list jsstring :=
  match s with
  | [] => [[]]
  | c :: r =>
      if c =? 10 then [] :: split_nl r
      else match split_nl r with
           | l :: ls => (c :: l) :: ls
           | [] => [[c]]
           end
  end.

(** [s.includes(c)] for a one-character needle. *)
Definition includes_char (s : jsstring) (c : char16) : bool :=
  existsb (N.eqb c) s.

(** [arr.includes(x)] on an array of strings. *)
Definition includes (arr : list jsstring) (x : jsstring) : bool :=
  existsb (str_eqb x) arr.

(** [s.indexOf(c)]: position of the first [c], [-1] when there is none. *)
Fixpoint indexOf (s : jsstring) (c : char16) : Z :=
  match s with
  | [] => -1
  | d :: r =>
      if d =? c then 0%Z
      else let i := indexOf r c in
           if (i <? 0)%Z then (-1)%Z else (i + 1)%Z
  end.

(** [s.lastIndexOf(c)]: position of the last [c], [-1] when there is none. *)
Fixpoint lastIndexOf (s : jsstring) (c : char16) : Z :=
  match s with
  | [] => -1
  | d :: r =>
      let i := lastIndexOf r c in
      if (0 <=? i)%Z then (i + 1)%Z
      else if d =? c then 0%Z else (-1)%Z
  end.

(** [s.substring(a, b)]: both ends are clamped to [0, length] and swapped
    when [a > b]. *)
Definition substring (s : jsstring) (a b : Z) : jsstring :=
  let len := Z.of_nat (List.length s) in
  let clamp := fun i => Z.max 0 (Z.min i len) in
  let lo := Z.min (clamp a) (clamp b) in
  let hi := Z.max (clamp a) (clamp b) in
  firstn (Z.to_nat (hi - lo)) (skipn (Z.to_nat lo) s).

(** Lines joined by line feeds, the inverse of [split_nl] on lines that hold
    no line feed. *)
Fixpoint join_nl (ls : list jsstring) : jsstring :=
  match ls with
  | [] => []
  | [l] => l
  | l :: rest => l ++ 10 :: join_nl rest
  end.

(* ================================================================== *)
(** ** Regular expressions *)
(* ================================================================== *)

(** The fragment of the regular expression language that the source uses:
    classes, sequence, alternation, an optional group, greedy and lazy
    repetition of a class, and one capture group. *)
Inductive regex : Type :=
| Eps
| Cls (p : char16 -> bool)
| Seq (a b : regex)
| Alt (a b : regex)
| Opt (a : regex)
| Star (p : char16 -> bool)
| Plus (p : char16 -> bool)
| LazyStar (p : char16 -> bool)
| Group (a : regex).

(** A pattern is a body, anchored at index 0 when it starts with [^]
    (no pattern of the source has the [m] or [g] flag). *)
Record pattern : Type := { anchored : bool; expr : regex }.

(** What a successful match exposes: the text before it, capture group 1,
    and the text after it. *)
Record match_result : Type :=
  { m_before : jsstring; m_group1 : option jsstring; m_after : jsstring }.

Section Backtracking.
Context {A : Type}.

(** [p*]: as many as possible first, giving back one at a time. *)
Fixpoint star_greedy (p : char16 -> bool) (s : jsstring)
         (k : jsstring -> option A) : option A :=
  match s with
  | c :: r =>
      if p c then
        match star_greedy p r k with
        | Some x => Some x
        | None => k s
        end
      else k s
  | [] => k s
  end.

(** [p*?]: as few as possible first, taking one more at a time. *)
Fixpoint star_lazy (p : char16 -> bool) (s : jsstring)
         (k : jsstring -> option A) : option A :=
  match k s with
  | Some x => Some x
  | None =>
      match s with
      | c :: r => if p c then star_lazy p r k else None
      | [] => None
      end
  end.

(** The backtracking matcher: [k] is what remains to be matched, applied
    to the rest of the input and the capture so far. *)
Fixpoint run (r : regex) (s : jsstring) (cap : option jsstring)
         (k : jsstring -> option jsstring -> option A) : option A :=
  match r with
  | Eps => k s cap
  | Cls p =>
      match s with
      | c :: t => if p c then k t cap else None
      | [] => None
      end
  | Seq a b => run a s cap (fun s' cap' => run b s' cap' k)
  | Alt a b =>
      match run a s cap k with
      | Some x => Some x
      | None => run b s cap k
      end
  | Opt a =>
      match run a s cap k with
      | Some x => Some x
      | None => k s cap
      end
  | Star p => star_greedy p s (fun s' => k s' cap)
  | Plus p =>
      match s with
      | c :: t => if p c then star_greedy p t (fun s' => k s' cap) else None
      | [] => None
      end
  | LazyStar p => star_lazy p s (fun s' => k s' cap)
  | Group a =>
      run a s cap
          (fun s' _ => k s' (Some (firstn (List.length s - List.length s') s)))
  end.
End Backtracking.

(** A match that starts at the first character of [s]. *)
Definition match_here (r : regex) (s : jsstring)
  : option (option jsstring * jsstring) :=
  run r s None (fun rest cap => Some (cap, rest)).

(** The leftmost match: every start index in turn, the end of the string
    included. *)
Fixpoint search (r : regex) (before s : jsstring) : option match_result :=
  match match_here r s with
  | Some (cap, rest) =>
      Some {| m_before := rev before; m_group1 := cap; m_after := rest |}
  | None =>
      match s with
      | c :: t => search r (c :: before) t
      | [] => None
      end
  end.

(** [RegExp.prototype.exec] / [String.prototype.match] without [g]. *)
Definition exec (p : pattern) (s : jsstring) : option match_result :=
  if anchored p then
    match match_here (expr p) s with
    | Some (cap, rest) =>
        Some {| m_before := []; m_group1 := cap; m_after := rest |}
    | None => None
    end
  else search (expr p) [] s.

(** [RegExp.prototype.test]. *)
Definition test (p : pattern) (s : jsstring) : bool :=
  match exec p s with Some _ => true | None => false end.

(** [s.replace(p, '')]: the first match removed. *)
Definition replace_empty (p : pattern) (s : jsstring) : jsstring :=
  match exec p s with
  | Some m => m_before m ++ m_after m
  | None => s
  end.

(** Every match of [r] goes through its capture group. *)
Fixpoint always_captures (r : regex) : bool :=
  match r with
  | Group _ => true
  | Seq a b => always_captures a || always_captures b
  | Alt a b => always_captures a && always_captures b
  | _ => false
  end.

(** One letter under the [i] flag: the lower-case ASCII letter [c] or its
    upper-case form (no other code unit is canonicalised to an ASCII
    letter). *)
Definition ci (c : char16) : char16 -> bool :=
  fun d => (d =? c) || (d =? c - 32).

Definition one (c : char16) : char16 -> bool := fun d => d =? c.

Fixpoint seq_of (ps : list (char16 -> bool)) : regex :=
  match ps with
  | [] => Eps
  | [p] => Cls p
  | p :: rest => Seq (Cls p) (seq_of rest)
  end.

(** A literal word under the [i] flag. *)
Definition word_ci (w : string) : regex := seq_of (List.map ci (lit w)).
(** A literal word, case-sensitive. *)
Definition word (w : string) : regex := seq_of (List.map one (lit w)).

Definition any_char (c : char16) : bool := true.
(** [.] matches everything but a line terminator. *)
Definition dot (c : char16) : bool := negb (is_line_terminator c).
(** The class [[-•*\d]]: hyphen, bullet U+2022, asterisk, digit. *)
Definition bullet_class (c : char16) : bool :=
  (c =? 45) || (c =? 8226) || (c =? 42) || is_digit c.
(** The class [[\s\.)]]. *)
Definition bullet_sep (c : char16) : bool :=
  is_space c || (c =? 46) || (c =? 41).
(** The class [[:\.)]]. *)
Definition step_sep (c : char16) : bool :=
  (c =? 58) || (c =? 46) || (c =? 41).

(** [\s*([\s\S]*?)\s*```], the end of the next pattern. *)
Definition fence_tail : regex :=
  Seq (Star is_space)
      (Seq (Group (LazyStar any_char))
           (Seq (Star is_space) (word "```"))).

(** [/```(?:json)?\s*([\s\S]*?)\s*```/] *)
Definition fence_re : pattern :=
  {| anchored := false;
     expr := Seq (word "```") (Seq (Opt (word "json")) fence_tail) |}.

(** [/(?:title|dish|recipe):\s*(.+)/i] *)
Definition title_re : pattern :=
  {| anchored := false;
     expr := Seq (Alt (word_ci "title") (Alt (word_ci "dish") (word_ci "recipe")))
            (Seq (Cls (one 58))
            (Seq (Star is_space) (Group (Plus dot)))) |}.

(** [/ingredients/i] *)
Definition ingredients_re : pattern :=
  {| anchored := false; expr := word_ci "ingredients" |}.

(** [/instructions|directions|steps/i] *)
Definition sections_re : pattern :=
  {| anchored := false;
     expr := Alt (word_ci "instructions")
            (Alt (word_ci "directions") (word_ci "steps")) |}.

(** [/^[-•*\d]+[\s\.)]/i] *)
Definition bullet_re : pattern :=
  {| anchored := true; expr := Seq (Plus bullet_class) (Cls bullet_sep) |}.

(** [/^step\s*\d+/i] *)
Definition step_re : pattern :=
  {| anchored := true;
     expr := Seq (word_ci "step") (Seq (Star is_space) (Plus is_digit)) |}.

(** [/^step\s*\d+[:\.)]/i] *)
Definition step_prefix_re : pattern :=
  {| anchored := true;
     expr := Seq (word_ci "step")
            (Seq (Star is_space) (Seq (Plus is_digit) (Cls step_sep))) |}.

(* ================================================================== *)
(** ** Tier 2: [extractRecipeFromText] *)
(* ================================================================== *)

(** The [Recipe] interface of [types/index.ts]. *)
Record Recipe : Type :=
  { title : jsstring;
    description : jsstring;
    ingredients : list jsstring;
    instructions : list jsstring;
    prepTime : option jsstring;
    cookTime : option jsstring;
    servings : option jsstring;
    difficulty : option jsstring }.

(** [text.split('\n').filter(line => line.trim())] *)
Definition nonblank_lines (text : jsstring) : list jsstring :=
  filter (fun line => str_truthy (trim line)) (split_nl text).

(** The title: the label pattern first, else a first line without a colon,
    else the default.  Group 1 is set in every match of [title_re] (lemma
    [exec_group1]), so [titleMatch[1]] is never [undefined]. *)
Definition extract_title (text : jsstring) (lines : list jsstring) : jsstring :=
  match exec title_re text with
  | Some m =>
      match m_group1 m with
      | Some g => trim g
      | None => lit "Delicious Recipe"
      end
  | None =>
      match lines with
      | l0 :: _ =>
          if str_truthy l0 && negb (includes_char l0 58) then trim l0
          else lit "Delicious Recipe"
      | [] => lit "Delicious Recipe"
      end
  end.

(** [if (cleaned && !arr.includes(cleaned)) arr.push(cleaned)] *)
Definition push_new (arr : list jsstring) (cleaned : jsstring) : list jsstring :=
  if str_truthy cleaned && negb (includes arr cleaned) then arr ++ [cleaned]
  else arr.

(** The first [for] loop, with its flag and the array built so far. *)
Fixpoint ingredients_loop (lines : list jsstring) (inIngredientsSection : bool)
         (acc : list jsstring) : list jsstring :=
  match lines with
  | [] => acc
  | line :: rest =>
      let trimmedLine := trim line in
      if test ingredients_re trimmedLine then ingredients_loop rest true acc
      else if test sections_re trimmedLine then ingredients_loop rest false acc
      else if inIngredientsSection || test bullet_re trimmedLine then
        let cleaned := trim (replace_empty bullet_re trimmedLine) in
        ingredients_loop rest inIngredientsSection (push_new acc cleaned)
      else ingredients_loop rest inIngredientsSection acc
  end.

(** The second [for] loop. *)
Fixpoint instructions_loop (lines : list jsstring) (inInstructionsSection : bool)
         (acc : list jsstring) : list jsstring :=
  match lines with
  | [] => acc
  | line :: rest =>
      let trimmedLine := trim line in
      if test sections_re trimmedLine then instructions_loop rest true acc
      else if inInstructionsSection || test step_re trimmedLine then
        let cleaned := trim (replace_empty step_prefix_re trimmedLine) in
        instructions_loop rest inInstructionsSection (push_new acc cleaned)
      else instructions_loop rest inInstructionsSection acc
  end.

(** [if (arr.length === 0) arr.push(placeholder)] *)
Definition or_placeholder (arr : list jsstring) (placeholder : jsstring)
  : list jsstring :=
  match arr with [] => [placeholder] | _ => arr end.

Definition extractRecipeFromText (text : jsstring) : Recipe :=
  let lines := nonblank_lines text in
  {| title := extract_title text lines;
     description := lit "Recipe generated from image analysis";
     ingredients :=
       or_placeholder (ingredients_loop lines false [])
         (lit "Ingredients not clearly specified in the image");
     instructions :=
       or_placeholder (instructions_loop lines false [])
         (lit "Instructions not clearly specified in the image");
     prepTime := Some (lit "30 minutes");
     cookTime := Some (lit "30 minutes");
     servings := Some (lit "4 servings");
     difficulty := Some (lit "Medium") |}.

(* ================================================================== *)
(** ** JavaScript values *)
(* ================================================================== *)

Set Warnings "-register-all".

(** The values [JSON.parse] and the request body can hold.  A number is
    kept as the exact decimal [m * 10 ^ e] its literal denotes; the
    handler only ever asks whether the double it rounds to is zero. *)
Inductive JSValue : Type :=
| JUndefined
| JNull
| JBool (b : bool)
| JNumber (m e : Z)
| JString (s : jsstring)
| JArray (elems : list JSValue)
| JObject (props : list (jsstring * JSValue)).

(** The double nearest to [m * 10 ^ e] is not zero: the magnitude exceeds
    [2 ^ -1075], half the least subnormal. *)
Definition number_nonzero (m e : Z) : bool :=
  if (0 <=? e)%Z then negb (m =? 0)%Z
  else (10 ^ (- e) <? Z.abs m * 2 ^ 1075)%Z.

(** [ToBoolean]: what [!v] negates. *)
Definition truthy (v : JSValue) : bool :=
  match v with
  | JUndefined | JNull => false
  | JBool b => b
  | JNumber m e => number_nonzero m e
  | JString s => str_truthy s
  | JArray _ | JObject _ => true
  end.

(** [Array.isArray]. *)
Definition isArray (v : JSValue) : bool :=
  match v with JArray _ => true | _ => false end.

Fixpoint lookup (k : jsstring) (props : list (jsstring * JSValue)) : JSValue :=
  match props with
  | [] => JUndefined
  | (k', v) :: rest => if str_eqb k k' then v else lookup k rest
  end.

(** [o[k] = v] on the own properties: an existing key keeps its place. *)
Fixpoint set_prop (props : list (jsstring * JSValue)) (k : jsstring) (v : JSValue)
  : list (jsstring * JSValue) :=
  match props with
  | [] => [(k, v)]
  | (k', v') :: rest =>
      if str_eqb k k' then (k', v) :: rest else (k', v') :: set_prop rest k v
  end.

(** What the handler catches: an [Error] with its message, or some other
    thrown value. *)
Inductive Thrown : Type :=
| ErrorObject (message : jsstring)
| NotAnError.

Inductive completion (A : Type) : Type :=
| Normal (a : A)
| Throw (e : Thrown).
Arguments Normal {A} a.
Arguments Throw {A} e.

Definition bind {A B : Type} (c : completion A) (f : A -> completion B)
  : completion B :=
  match c with
  | Normal a => f a
  | Throw e => Throw e
  end.

Notation "x <- c ;; k" := (bind c (fun x => k))
  (at level 61, c at next level, right associativity).

(** The property names the handler reads.  None of them is an array index,
    [length], or a name found on a built-in prototype, so a read finds an
    own property of an object or nothing. *)
Definition named (v : JSValue) (k : jsstring) : JSValue :=
  match v with
  | JObject props => lookup k props
  | _ => JUndefined
  end.

(** [v[0]]: the first element of an array, the first code unit of a string,
    the property ["0"] of an object. *)
Definition index0 (v : JSValue) : JSValue :=
  match v with
  | JArray (x :: _) => x
  | JString (c :: _) => JString [c]
  | JObject props => lookup (lit "0") props
  | _ => JUndefined
  end.

(* ================================================================== *)
(** ** [JSON.parse] *)
(* ================================================================== *)

Definition is_json_ws (c : char16) : bool :=
  (c =? 9) || (c =? 10) || (c =? 13) || (c =? 32).

Definition skip_ws (s : jsstring) : jsstring := drop_while is_json_ws s.

Definition hex_digit (c : char16) : option N :=
  if in_range 48 57 c then Some (c - 48)
  else if in_range 97 102 c then Some (c - 87)
  else if in_range 65 70 c then Some (c - 55)
  else None.

Definition hex4 (a b c d : char16) : option char16 :=
  match hex_digit a, hex_digit b, hex_digit c, hex_digit d with
  | Some x, Some y, Some z, Some w => Some (((x * 16 + y) * 16 + z) * 16 + w)
  | _, _, _, _ => None
  end.

(** The character a one-letter escape stands for. *)
Definition unescape (c : char16) : option char16 :=
  if (c =? 34) || (c =? 92) || (c =? 47) then Some c
  else if c =? 98 then Some 8
  else if c =? 102 then Some 12
  else if c =? 110 then Some 10
  else if c =? 114 then Some 13
  else if c =? 116 then Some 9
  else None.

(** A string after its opening quote, up to and including the closing one. *)
Fixpoint parse_string (s acc : jsstring) : option (jsstring * jsstring) :=
  match s with
  | [] => None
  | c :: r =>
      if c =? 34 then Some (rev acc, r)
      else if c =? 92 then
        match r with
        | [] => None
        | e :: r' =>
            if e =? 117 then
              match r' with
              | h1 :: h2 :: h3 :: h4 :: r'' =>
                  match hex4 h1 h2 h3 h4 with
                  | Some u => parse_string r'' (u :: acc)
                  | None => None
                  end
              | _ => None
              end
            else
              match unescape e with
              | Some u => parse_string r' (u :: acc)
              | None => None
              end
        end
      else if c <? 32 then None
      else parse_string r (c :: acc)
  end.

Fixpoint take_digits (s : jsstring) : jsstring * jsstring :=
  match s with
  | c :: r =>
      if is_digit c then let (ds, rest) := take_digits r in (c :: ds, rest)
      else ([], s)
  | [] => ([], [])
  end.

Definition digits_value (ds : jsstring) : Z :=
  fold_left (fun a d => (10 * a + (Z.of_N d - 48))%Z) ds 0%Z.

(** The parts of a number literal: an optional minus sign, an integer
    part without a leading zero, an optional fraction, an optional
    exponent. *)
Definition sign_part (s : jsstring) : bool * jsstring :=
  match s with
  | c :: r => if c =? 45 then (true, r) else (false, s)
  | [] => (false, s)
  end.

Definition int_part (s : jsstring) : jsstring * jsstring :=
  match s with
  | c :: r => if c =? 48 then ([c], r) else take_digits s
  | [] => ([], [])
  end.

Definition frac_part (s : jsstring) : option (jsstring * jsstring) :=
  match s with
  | c :: r =>
      if c =? 46 then
        match take_digits r with
        | ([], _) => None
        | (fp, r') => Some (fp, r')
        end
      else Some ([], s)
  | [] => Some ([], s)
  end.

Definition exp_sign (s : jsstring) : bool * jsstring :=
  match s with
  | d :: r =>
      if d =? 45 then (true, r)
      else if d =? 43 then (false, r)
      else (false, s)
  | [] => (false, s)
  end.

Definition exp_part (s : jsstring) : option (Z * jsstring) :=
  match s with
  | c :: r =>
      if (c =? 101) || (c =? 69) then
        let (eneg, r1) := exp_sign r in
        match take_digits r1 with
        | ([], _) => None
        | (ep, r2) =>
            Some ((if eneg then - digits_value ep else digits_value ep)%Z, r2)
        end
      else Some (0%Z, s)
  | [] => Some (0%Z, s)
  end.

Definition parse_number (s : jsstring) : option (JSValue * jsstring) :=
  let (neg, s1) := sign_part s in
  match int_part s1 with
  | ([], _) => None
  | (ip, s2) =>
      match frac_part s2 with
      | None => None
      | Some (fp, s3) =>
          match exp_part s3 with
          | None => None
          | Some (ex, s4) =>
              let m := digits_value (ip ++ fp) in
              Some (JNumber (if neg then - m else m)%Z
                            (ex - Z.of_nat (List.length fp))%Z, s4)
          end
      end
  end.

Fixpoint strip_prefix (p s : jsstring) : option jsstring :=
  match p, s with
  | [], _ => Some s
  | a :: p', b :: s' => if a =? b then strip_prefix p' s' else None
  | _ :: _, [] => None
  end.

(** The keywords and numbers: every value that starts with neither a
    brace, a bracket nor a quote. *)
Definition parse_scalar (s : jsstring) : option (JSValue * jsstring) :=
  match strip_prefix (lit "true") s with
  | Some r => Some (JBool true, r)
  | None =>
      match strip_prefix (lit "false") s with
      | Some r => Some (JBool false, r)
      | None =>
          match strip_prefix (lit "null") s with
          | Some r => Some (JNull, r)
          | None => parse_number s
          end
      end
  end.

(** A value, the elements of an array after its first bracket, the members
    of an object after its first brace.  [fuel] bounds the depth of the
    calls; twice the length of the text is always enough (lemma
    [parsers_fuel]). *)
Fixpoint parse_value (fuel : nat) (s : jsstring) {struct fuel}
  : option (JSValue * jsstring) :=
  match fuel with
  | O => None
  | S f =>
      match skip_ws s with
      | [] => None
      | c :: r =>
          if c =? 123 then
            match skip_ws r with
            | d :: r' =>
                if d =? 125 then Some (JObject [], r')
                else parse_members f r []
            | [] => None
            end
          else if c =? 91 then
            match skip_ws r with
            | d :: r' =>
                if d =? 93 then Some (JArray [], r')
                else parse_elements f r []
            | [] => None
            end
          else if c =? 34 then
            match parse_string r [] with
            | Some (str, r') => Some (JString str, r')
            | None => None
            end
          else parse_scalar (c :: r)
      end
  end
with parse_elements (fuel : nat) (s : jsstring) (acc : list JSValue)
       {struct fuel} : option (JSValue * jsstring) :=
  match fuel with
  | O => None
  | S f =>
      match parse_value f s with
      | Some (v, r) =>
          match skip_ws r with
          | d :: r' =>
              if d =? 44 then parse_elements f r' (v :: acc)
              else if d =? 93 then Some (JArray (rev (v :: acc)), r')
              else None
          | [] => None
          end
      | None => None
      end
  end
with parse_members (fuel : nat) (s : jsstring)
       (acc : list (jsstring * JSValue)) {struct fuel}
  : option (JSValue * jsstring) :=
  match fuel with
  | O => None
  | S f =>
      match skip_ws s with
      | q :: r =>
          if q =? 34 then
            match parse_string r [] with
            | Some (key, r1) =>
                match skip_ws r1 with
                | c :: r2 =>
                    if c =? 58 then
                      match parse_value f r2 with
                      | Some (v, r3) =>
                          match skip_ws r3 with
                          | d :: r4 =>
                              if d =? 44 then
                                parse_members f r4 (set_prop acc key v)
                              else if d =? 125 then
                                Some (JObject (set_prop acc key v), r4)
                              else None
                          | [] => None
                          end
                      | None => None
                      end
                    else None
                | [] => None
                end
            | None => None
            end
          else None
      | [] => None
      end
  end.

(** [JSON.parse(text)]: one value with white space around it; [None] is
    the [SyntaxError]. *)
Definition JSON_parse (text : jsstring) : option JSValue :=
  match parse_value (2 * List.length text + 2) text with
  | Some (v, rest) =>
      match skip_ws rest with
      | [] => Some v
      | _ :: _ => None
      end
  | None => None
  end.

(* ================================================================== *)
(** ** Tier 1: the [try] block of [handler] *)
(* ================================================================== *)

(** The text handed to [JSON.parse]: the inside of the first fenced block
    when there is one, cut down to the span from the first opening brace to
    the last closing brace when both exist.  [None] would be capture group
    1 left [undefined] and [indexOf] throwing on it; [fence_re] sets it in
    every match (lemma [exec_group1]). *)
Definition json_candidate (content : jsstring) : option jsstring :=
  let jsonString :=
    match exec fence_re content with
    | Some jsonMatch => m_group1 jsonMatch
    | None => Some content
    end in
  match jsonString with
  | None => None
  | Some jsonString =>
      let jsonStart := indexOf jsonString 123 in
      let jsonEnd := lastIndexOf jsonString 125 in
      if negb (jsonStart =? -1)%Z && negb (jsonEnd =? -1)%Z
      then Some (substring jsonString jsonStart (jsonEnd + 1))
      else Some jsonString
  end.

Definition nullish (v : JSValue) : bool :=
  match v with JUndefined | JNull => true | _ => false end.

(** [!recipe.title || !recipe.ingredients || !recipe.instructions] *)
Definition invalid_structure (recipe : JSValue) : bool :=
  negb (truthy (named recipe (lit "title")))
  || negb (truthy (named recipe (lit "ingredients")))
  || negb (truthy (named recipe (lit "instructions"))).

(** [recipe[k] = x]; the value is an object wherever the handler assigns
    (lemma [valid_structure_object]). *)
Definition assign (recipe : JSValue) (k : jsstring) (x : JSValue) : JSValue :=
  match recipe with
  | JObject props => JObject (set_prop props k x)
  | _ => recipe
  end.

(** [if (!Array.isArray(recipe[k])) recipe[k] = [recipe[k]]] *)
Definition ensure_array (k : jsstring) (recipe : JSValue) : JSValue :=
  if isArray (named recipe k) then recipe
  else assign recipe k (JArray [named recipe k]).

(** Lines 120 to 131: the structure check, then the two coercions.
    [None] stands for a throw: the [TypeError] of reading [title] from
    [null], or ['Invalid recipe structure']. *)
Definition validate_and_coerce (recipe : JSValue) : option JSValue :=
  if nullish recipe then None
  else if invalid_structure recipe then None
  else Some (ensure_array (lit "instructions")
               (ensure_array (lit "ingredients") recipe)).

(** The whole [try] block on a string; [None] when anything in it throws
    (the [catch] clause only logs what was thrown). *)
Definition tier1 (content : jsstring) : option JSValue :=
  match json_candidate content with
  | None => None
  | Some jsonString =>
      match JSON_parse jsonString with
      | None => None
      | Some recipe => validate_and_coerce recipe
      end
  end.

Definition strings (l : list jsstring) : JSValue := JArray (List.map JString l).

Definition optional (k : string) (v : option jsstring)
  : list (jsstring * JSValue) :=
  match v with
  | Some s => [(lit k, JString s)]
  | None => []
  end.

(** A [Recipe] as the object that is serialised into the response. *)
Definition recipe_value (r : Recipe) : JSValue :=
  JObject ([(lit "title", JString (title r));
            (lit "description", JString (description r));
            (lit "ingredients", strings (ingredients r));
            (lit "instructions", strings (instructions r))]
           ++ optional "prepTime" (prepTime r)
           ++ optional "cookTime" (cookTime r)
           ++ optional "servings" (servings r)
           ++ optional "difficulty" (difficulty r)).

(* ================================================================== *)
(** ** The request handler *)
(* ================================================================== *)

(** [GenerateRecipeResponse] of [types/index.ts]: one of the two fields. *)
Inductive GenerateRecipeResponse : Type :=
| RecipeBody (recipe : JSValue)
| ErrorBody (error : jsstring).

(** [res.status(code).json(body)] *)
Inductive Outcome : Type :=
| Respond (code : N) (json : GenerateRecipeResponse).

Record NextApiRequest : Type := { method : jsstring; body : JSValue }.

(** [process.env] *)
Record Env : Type :=
  { OPENROUTER_API_KEY : option jsstring; SITE_URL : option jsstring }.

(** The parts of the outbound request that vary (the model name, prompt,
    [max_tokens] and [temperature] are constants); [image] is the value
    interpolated into the data URL. *)
Record GatewayRequest : Type :=
  { authorization : jsstring; http_referer : jsstring; image : JSValue }.

(** What [fetch] resolves to, with what [text()] and [json()] would give. *)
Record Response : Type :=
  { ok : bool;
    status : N;
    statusText : jsstring;
    text_result : completion jsstring;
    json_result : completion JSValue }.

(** A run of the handler: it answers at once, or calls the gateway once
    and answers from what [fetch] gives (a rejection is a throw). *)
Inductive Program : Type :=
| Done (o : Outcome)
| CallGateway (rq : GatewayRequest) (k : completion Response -> Outcome).

(** [`${response.status}`] *)
Definition number_to_string (n : N) : jsstring :=
  lit (NilZero.string_of_uint (N.to_uint n)).

Definition env_truthy (v : option jsstring) : bool :=
  match v with Some s => str_truthy s | None => false end.

(** Lines 100 to 149: Tier 1, then the fallback.  On a [content] that is
    not a string, [content.match] throws in the [try] block and
    [text.split] throws in the fallback. *)
Definition respond_from_content (content : JSValue) : Outcome :=
  match content with
  | JString text =>
      match tier1 text with
      | Some recipe => Respond 200 (RecipeBody recipe)
      | None =>
          Respond 200 (RecipeBody (recipe_value (extractRecipeFromText text)))
      end
  | _ => Respond 500 (ErrorBody (lit "Failed to parse recipe from AI response"))
  end.

(** The outer [catch]. *)
Definition catch_all (c : completion Outcome) : Outcome :=
  match c with
  | Normal o => o
  | Throw (ErrorObject message) => Respond 500 (ErrorBody message)
  | Throw NotAnError => Respond 500 (ErrorBody (lit "Internal server error"))
  end.

Section Engine.

(** The wording of the engine's [TypeError] when property [k] is read from,
    or destructured out of, [undefined] or [null] ([v]); it differs between
    engines. *)
Variable type_error_message : JSValue -> jsstring -> jsstring.

(** [v.k], and [const { k } = v] *)
Definition get (v : JSValue) (k : jsstring) : completion JSValue :=
  if nullish v then Throw (ErrorObject (type_error_message v k))
  else Normal (named v k).

(** [v[0]] *)
Definition get0 (v : JSValue) : completion JSValue :=
  if nullish v then Throw (ErrorObject (type_error_message v (lit "0")))
  else Normal (index0 v).

Definition invalid_response : completion Outcome :=
  Normal (Respond 500 (ErrorBody (lit "Invalid response from AI service"))).

(** Lines 83 to 149, inside the outer [try]. *)
Definition after_fetch (fetched : completion Response) : completion Outcome :=
  response <- fetched ;;
  if negb (ok response) then
    errorData <- text_result response ;;
    Normal (Respond 500 (ErrorBody
      (lit "Failed to generate recipe: " ++ number_to_string (status response)
       ++ lit " " ++ statusText response)))
  else
    data <- json_result response ;;
    choices <- get data (lit "choices") ;;
    if negb (truthy choices) then invalid_response
    else
      choice <- get0 choices ;;
      if negb (truthy choice) then invalid_response
      else
        message <- get choice (lit "message") ;;
        if negb (truthy message) then invalid_response
        else
          content <- get message (lit "content") ;;
          Normal (respond_from_content content).

(** What the handler answers once [fetch] has settled: lines 83 to 149
    under the outer [catch]. *)
Definition gateway_outcome (fetched : completion Response) : Outcome :=
  catch_all (after_fetch fetched).

Definition handler (env : Env) (req : NextApiRequest) : Program :=
  if negb (str_eqb (method req) (lit "POST")) then
    Done (Respond 405 (ErrorBody (lit "Method not allowed")))
  else
    match get (body req) (lit "image") with
    | Throw e => Done (catch_all (Throw e))
    | Normal image =>
        if negb (truthy image) then
          Done (Respond 400 (ErrorBody (lit "Image is required")))
        else
          match OPENROUTER_API_KEY env with
          | Some apiKey =>
              if str_truthy apiKey then
                CallGateway
                  {| authorization := lit "Bearer " ++ apiKey;
                     http_referer :=
                       (if env_truthy (SITE_URL env)
                        then match SITE_URL env with Some u => u | None => [] end
                        else lit "http://localhost:3000");
                     image := image |}
                  gateway_outcome
              else Done (Respond 500 (ErrorBody (lit "API configuration error")))
          | None => Done (Respond 500 (ErrorBody (lit "API configuration error")))
          end
    end.

(** The handler run against a gateway. *)
Definition serve (fetch : GatewayRequest -> completion Response)
           (env : Env) (req : NextApiRequest) : Outcome :=
  match handler env req with
  | Done o => o
  | CallGateway rq k => k (fetch rq)
  end.

End Engine.

(** The gateway is called in this run. *)
Definition invokes_gateway (p : Program) : bool :=
  match p with Done _ => false | CallGateway _ _ => true end.

(** [!data.choices || !data.choices[0] || !data.choices[0].message] *)
Definition lacks_completion (data : JSValue) : bool :=
  let choices := named data (lit "choices") in
  negb (truthy choices)
  || negb (truthy (index0 choices))
  || negb (truthy (named (index0 choices) (lit "message"))).

(** [error instanceof Error ? error.message : 'Internal server error'] *)
Definition thrown_message (e : Thrown) : jsstring :=
  match e with
  | ErrorObject message => message
  | NotAnError => lit "Internal server error"
  end.

(** A non-empty sequence of non-empty strings. *)
Definition nonempty_texts (l : list jsstring) : Prop :=
  l <> [] /\ Forall (fun s => s <> []) l.

(** ** Texts with an ingredients section and an instructions section *)





(** Not empty, and no white space at either end. *)
Definition trimmed (s : jsstring) : Prop :=
  s <> [] /\ is_space (hd 0 s) = false /\ is_space (last s 0) = false.






(** [r] is what remains of [s] after some of its characters were read. *)
Definition rest_of (r s : jsstring) : Prop := exists pre, s = pre ++ r.

(* ================================================================== *)
(** ** Sample inputs *)
(* ================================================================== *)

(** A string literal of a JSON text, with its quotes. *)
Definition quoted (s : string) : jsstring := 34 :: lit s ++ [34].

(** The wording V8 uses for a property read from [undefined] or [null]. *)
Definition v8_type_error_message (v : JSValue) (k : jsstring) : jsstring :=
  lit "Cannot read properties of "
  ++ (match v with JNull => lit "null" | _ => lit "undefined" end)
  ++ lit " (reading '" ++ k ++ lit "')".

Definition sample_env : Env :=
  {| OPENROUTER_API_KEY := Some (lit "sk-or-key"); SITE_URL := None |}.

Definition post (b : JSValue) : NextApiRequest :=
  {| method := lit "POST"; body := b |}.

Definition image_body (img : jsstring) : JSValue :=
  JObject [(lit "image", JString img)].

(** The text of the worked example for the fallback. *)
Definition pasta_text : jsstring :=
  join_nl [lit "Title: Pasta"; lit "Ingredients"; lit "1. Pasta";
           lit "2. Cheese"; lit "Instructions"; lit "Step 1: Boil water";
           lit "Step 2: Add pasta"].

(** A well-formed JSON recipe whose two lists are empty and whose title
    is one space. *)
Definition hollow_recipe_text : jsstring :=
  lit "{" ++ quoted "title" ++ lit ":" ++ quoted " " ++ lit ","
  ++ quoted "ingredients" ++ lit ":[]," ++ quoted "instructions" ++ lit ":[]}".

(** A completion that stops after a label. *)
Definition label_only_text : jsstring := lit "Title: ".


(** A recipe as normalisation leaves it. *)
Definition normal_recipe : JSValue :=
  JObject [(lit "title", JString (lit "X"));
           (lit "ingredients", strings [lit "one item"]);
           (lit "instructions", strings [lit "a"; lit "b"])].






(** A provider reply that is an error status. *)
Definition unavailable : Response :=
  {| ok := false; status := 503; statusText := lit "Service Unavailable";
     text_result := Normal (lit "upstream down");
     json_result := Throw (ErrorObject (lit "Unexpected token u in JSON")) |}.





(** No line is a header, a list item or a numbered step. *)
Definition unrecognised (line : jsstring) : bool :=
  negb (test ingredients_re (trim line))
  && negb (test sections_re (trim line))
  && negb (test bullet_re (trim line))
  && negb (test step_re (trim line)).

(* ================================================================== *)
(** ** The page that calls the route: [pages/index.tsx] *)
(* ================================================================== *)

Module Home.

(** What the page reads of a [File]. *)
Record File : Type := { type : jsstring; size : N }.

(** [ImageUploadState] and [LoadingState] of [types/index.ts]. *)
Record ImageUploadState : Type :=
  { file : option File;
    preview : option jsstring;
    isUploading : bool;
    error : option jsstring }.

Record LoadingState : Type := { isLoading : bool; message : jsstring }.

(** The four state hooks of [Home]; [pageError] is the hook named
    [error]. *)
Record State : Type :=
  { imageState : ImageUploadState;
    loadingState : LoadingState;
    recipe : option JSValue;
    pageError : option jsstring }.

(** The state the hooks start from. *)
Definition initial : State :=
  {| imageState :=
       {| file := None; preview := None; isUploading := false; error := None |};
     loadingState := {| isLoading := false; message := [] |};
     recipe := None;
     pageError := None |}.

(** [s.startsWith(p)] *)
Definition startsWith (s p : jsstring) : bool :=
  match strip_prefix p s with Some _ => true | None => false end.

(** [setImageState(prev => ({ ...prev, error: text }))] *)
Definition set_upload_error (st : State) (text : jsstring) : State :=
  {| imageState :=
       {| file := file (imageState st);
          preview := preview (imageState st);
          isUploading := isUploading (imageState st);
          error := Some text |};
     loadingState := loadingState st;
     recipe := recipe st;
     pageError := pageError st |}.

(** [handleImageUpload] up to the call of the reader: the upload is
    refused with a new state, or the file is handed to
    [readAsDataURL]. *)
Inductive UploadStep : Type :=
| Refused (st : State)
| ReadAsDataURL (f : File).

Definition handleImageUpload (st : State) (f : File) : UploadStep :=
  if negb (startsWith (type f) (lit "image/")) then
    Refused (set_upload_error st (lit "Please select an image file"))
  else if 10 * 1024 * 1024 <? size f then
    Refused (set_upload_error st (lit "Image size must be less than 10MB"))
  else ReadAsDataURL f.

(** [reader.onload], with the data URL the reader produced. *)
Definition onload (st : State) (f : File) (result : jsstring) : State :=
  {| imageState :=
       {| file := Some f; preview := Some result;
          isUploading := false; error := None |};
     loadingState := loadingState st;
     recipe := None;
     pageError := None |}.

(** [handleFileChange] and [handleDrop]: the first file, if there is
    one. *)
Definition handleFileChange (st : State) (files : list File)
  : option UploadStep :=
  match files with
  | f :: _ => Some (handleImageUpload st f)
  | [] => None
  end.

Definition handleDrop (st : State) (files : list File) : option UploadStep :=
  match files with
  | f :: _ => Some (handleImageUpload st f)
  | [] => None
  end.

(** [removeImage]; the reset of the file input is left out. *)
Definition removeImage (st : State) : State :=
  {| imageState :=
       {| file := None; preview := None; isUploading := false; error := None |};
     loadingState := loadingState st;
     recipe := None;
     pageError := None |}.

(** [s.split(c)] for a one-character separator. *)
Fixpoint split_char (c : char16) (s : jsstring) : list jsstring :=
  match s with
  | [] => [[]]
  | d :: r =>
      if d =? c then [] :: split_char c r
      else match split_char c r with
           | l :: ls => (d :: l) :: ls
           | [] => [[d]]
           end
  end.

(** [imageState.preview.split(',')[1]]; [None] is [undefined]. *)
Definition base64Image (preview : jsstring) : option jsstring :=
  nth_error (split_char 44 preview) 1.

(** [generateRecipe] up to its [fetch]: it stops with an error, or posts
    [{ image }] with the new state. *)
Inductive GenerateStep : Type :=
| NotPosted (st : State)
| Posted (st : State) (image : option jsstring).

Definition generateRecipe (st : State) : GenerateStep :=
  match file (imageState st), preview (imageState st) with
  | Some _, Some p =>
      if str_truthy p then
        Posted {| imageState := imageState st;
                  loadingState :=
                    {| isLoading := true;
                       message := lit "Analyzing your delicious food..." |};
                  recipe := None;
                  pageError := None |}
               (base64Image p)
      else
        NotPosted {| imageState := imageState st;
                     loadingState := loadingState st;
                     recipe := recipe st;
                     pageError := Some (lit "Please upload an image first") |}
  | _, _ =>
      NotPosted {| imageState := imageState st;
                   loadingState := loadingState st;
                   recipe := recipe st;
                   pageError := Some (lit "Please upload an image first") |}
  end.

(** The body of the request as the route reads it: [JSON.stringify]
    leaves out a property that is [undefined]. *)
Definition request_body (image : option jsstring) : JSValue :=
  match image with
  | Some b => JObject [(lit "image", JString b)]
  | None => JObject []
  end.

Section Settle.

(** The engine's wording of a [TypeError], and its [ToString] on a value
    that is not a string. *)
Variable type_error_message : JSValue -> jsstring -> jsstring.
Variable ToString : JSValue -> jsstring.

(** [new Error(v).message] *)
Definition error_text (v : JSValue) : jsstring :=
  match v with JString s => s | _ => ToString v end.

(** The [try] block after [fetch]: the recipe, or what is thrown. *)
Definition settle (fetched : completion Response) : completion JSValue :=
  response <- fetched ;;
  data <- json_result response ;;
  if negb (ok response) then
    e <- get type_error_message data (lit "error") ;;
    Throw (ErrorObject
             (error_text (if truthy e then e
                          else JString (lit "Failed to generate recipe"))))
  else
    r <- get type_error_message data (lit "recipe") ;;
    if truthy r then Normal r
    else Throw (ErrorObject (lit "No recipe returned from API")).

(** The state once the request has settled. *)
Definition finish (fetched : completion Response) (st : State) : State :=
  match settle fetched with
  | Normal r =>
      {| imageState := imageState st;
         loadingState := {| isLoading := false; message := [] |};
         recipe := Some r;
         pageError := pageError st |}
  | Throw e =>
      {| imageState := imageState st;
         loadingState := {| isLoading := false; message := [] |};
         recipe := recipe st;
         pageError :=
           Some (match e with
                 | ErrorObject m => m
                 | NotAnError =>
                     lit "An error occurred while generating the recipe"
                 end) |}
  end.

End Settle.

(** [response.ok] *)
Definition is_success (code : N) : bool := in_range 200 299 code.

(** The object [res.json] sends. *)
Definition response_json (json : GenerateRecipeResponse) : JSValue :=
  match json with
  | RecipeBody r => JObject [(lit "recipe", r)]
  | ErrorBody e => JObject [(lit "error", JString e)]
  end.

(** The response the page receives carries what the route answered. *)
Definition carries (r : Response) (o : Outcome) : Prop :=
  match o with
  | Respond code json =>
      ok r = is_success code
      /\ status r = code
      /\ json_result r = Normal (response_json json)
  end.

End Home.

(* ================================================================== *)
(** ** More sample inputs *)
(* ================================================================== *)

(** A key that is configured as the empty string. *)
Definition empty_key_env : Env :=
  {| OPENROUTER_API_KEY := Some []; SITE_URL := None |}.

(** A provider reply with status 200 whose first choice carries
    [content]; only [json()] is read of it. *)
Definition completion_reply (content : JSValue) : Response :=
  {| ok := true; status := 200; statusText := lit "OK";
     text_result := Throw (ErrorObject (lit "Body has already been read"));
     json_result :=
       Normal (JObject
                 [(lit "choices",
                   JArray [JObject [(lit "message",
                                     JObject [(lit "content", content)])]])]) |}.

(** A provider reply with status 200 whose body is the JSON text [null]. *)
Definition null_reply : Response :=
  {| ok := true; status := 200; statusText := lit "OK";
     text_result := Normal (lit "null");
     json_result := Normal JNull |}.

(** A gateway that always completes with the text of the worked example. *)
Definition pasta_gateway (rq : GatewayRequest) : completion Response :=
  Normal (completion_reply (JString pasta_text)).

(** The members of a recipe with arrays, and that recipe between prose. *)
Definition array_recipe_members : jsstring :=
  quoted "title" ++ lit ":" ++ quoted "X" ++ lit ","
  ++ quoted "ingredients" ++ lit ":[" ++ quoted "one item" ++ lit "],"
  ++ quoted "instructions" ++ lit ":[" ++ quoted "a" ++ lit "," ++ quoted "b"
  ++ lit "]".

Definition prose_wrapped_recipe : jsstring :=
  lit "Sure! " ++ (123 :: array_recipe_members ++ [125]) ++ lit " Enjoy.".

(** The object of the worked example for Tier 1, as parsed. *)
Definition scalar_recipe : JSValue :=
  JObject [(lit "title", JString (lit "X"));
           (lit "ingredients", JString (lit "one item"));
           (lit "instructions", strings [lit "a"; lit "b"])].

(** A file, the two parts of its data URL, and the page once it is
    loaded. *)
Definition png_file : Home.File :=
  {| Home.type := lit "image/png"; Home.size := 2048 |}.

Definition text_file : Home.File :=
  {| Home.type := lit "text/plain"; Home.size := 10 |}.

Definition data_url_prefix : jsstring := lit "data:image/png;base64".
Definition data_url_payload : jsstring := lit "iVBORw0KGgo=".

Definition selected_page : Home.State :=
  Home.onload Home.initial png_file (data_url_prefix ++ 44 :: data_url_payload).

(** That page while its request is under way. *)
Definition posted_page : Home.State :=
  {| Home.imageState := Home.imageState selected_page;
     Home.loadingState :=
       {| Home.isLoading := true;
          Home.message := lit "Analyzing your delicious food..." |};
     Home.recipe := None;
     Home.pageError := None |}.

(** A page whose preview holds no comma, and that page while its request
    is under way. *)
Definition comma_less_page : Home.State :=
  Home.onload Home.initial png_file (lit "not-a-data-url").

Definition comma_less_posted : Home.State :=
  {| Home.imageState := Home.imageState comma_less_page;
     Home.loadingState :=
       {| Home.isLoading := true;
          Home.message := lit "Analyzing your delicious food..." |};
     Home.recipe := None;
     Home.pageError := None |}.

(** A response that carries an answer of the route. *)
Definition delivered (o : Outcome) : Response :=
  match o with
  | Respond code json =>
      {| ok := Home.is_success code; status := code; statusText := [];
         text_result := Throw (ErrorObject (lit "Body has already been read"));
         json_result := Normal (Home.response_json json) |}
  end.

(** V8's [ToString] of an object that is not an array. *)
Definition object_ToString (v : JSValue) : jsstring := lit "[object Object]".

(* ================================================================== *)
(** * Properties *)
(* ================================================================== *)

Lemma str_eqb_eq (a b : jsstring) : str_eqb a b = true <-> a = b.
Proof.
  unfold str_eqb. destruct (list_eq_dec N.eq_dec a b); split; congruence.
Qed.

Lemma str_eqb_refl (a : jsstring) : str_eqb a a = true.
Proof. apply str_eqb_eq. reflexivity. Qed.

Lemma str_eqb_neq (a b : jsstring) : a <> b -> str_eqb a b = false.
Proof.
  intros H. unfold str_eqb. destruct (list_eq_dec N.eq_dec a b); congruence.
Qed.

(** ** The worked example of the fallback *)

(** C7: on the text "Title: Pasta / Ingredients / 1. Pasta / 2. Cheese /
    Instructions / Step 1: Boil water / Step 2: Add pasta" the fallback
    gives the title "Pasta", the ingredients "Pasta", "Cheese" and the
    instructions "Boil water", "Add pasta". *)
Theorem fallback_pasta_example :
  title (extractRecipeFromText pasta_text) = lit "Pasta"
  /\ ingredients (extractRecipeFromText pasta_text)
     = [lit "Pasta"; lit "Cheese"]
  /\ instructions (extractRecipeFromText pasta_text)
     = [lit "Boil water"; lit "Add pasta"].
Proof. vm_compute. repeat split. Qed.

(** ** The request handler before the gateway *)

Section HandlerProperties.

(** The engine's wording of a [TypeError]. *)
Variable msg : JSValue -> jsstring -> jsstring.

(** C2, as amended: a request whose [image] field is the empty string never
    reaches the gateway; it is answered 400 when it is a POST and 405
    otherwise. *)
Theorem empty_image_rejected (env : Env) (req : NextApiRequest) :
  named (body req) (lit "image") = JString [] ->
  invokes_gateway (handler msg env req) = false
  /\ (method req = lit "POST" ->
      handler msg env req = Done (Respond 400 (ErrorBody (lit "Image is required"))))
  /\ (method req <> lit "POST" ->
      handler msg env req = Done (Respond 405 (ErrorBody (lit "Method not allowed")))).
Proof.
  intros Himg.
  assert (Hnn : nullish (body req) = false).
  { destruct (body req); simpl in *; try discriminate; reflexivity. }
  unfold handler, get. rewrite Hnn, Himg. simpl.
  destruct (str_eqb (method req) (lit "POST")) eqn:Hm; simpl.
  - apply str_eqb_eq in Hm. repeat split; intros; congruence.
  - repeat split; intros; try reflexivity.
    rewrite H, str_eqb_refl in Hm. discriminate.
Qed.

(** C10, as amended: a POST whose body is [undefined] or [null] is answered
    500 with the message of the [TypeError]; a body that is any other value
    without an [image] property (a string, a number, a boolean, an array)
    is read without a throw and answered 400. *)
Theorem unreadable_body_outcome (env : Env) (req : NextApiRequest) :
  method req = lit "POST" ->
  (nullish (body req) = true ->
   handler msg env req
   = Done (Respond 500 (ErrorBody (msg (body req) (lit "image")))))
  /\ (nullish (body req) = false ->
      (forall props, body req <> JObject props) ->
      handler msg env req = Done (Respond 400 (ErrorBody (lit "Image is required")))).
Proof.
  intros Hm. unfold handler, get. rewrite Hm, str_eqb_refl. simpl.
  split; intros Hn.
  - rewrite Hn. reflexivity.
  - intros Hobj. rewrite Hn.
    destruct (body req); simpl; try reflexivity.
    exfalso. apply (Hobj props). reflexivity.
Qed.

(** With a truthy image and a configured key, a POST calls the gateway, and
    the answer is [gateway_outcome] of what [fetch] gives. *)
Lemma handler_calls_gateway (env : Env) (req : NextApiRequest)
      (fetch : GatewayRequest -> completion Response) (apiKey : jsstring) :
  method req = lit "POST" ->
  nullish (body req) = false ->
  truthy (named (body req) (lit "image")) = true ->
  OPENROUTER_API_KEY env = Some apiKey ->
  str_truthy apiKey = true ->
  exists rq,
    handler msg env req = CallGateway rq (gateway_outcome msg)
    /\ serve msg fetch env req = gateway_outcome msg (fetch rq).
Proof.
  intros Hm Hn Hi Hk Ht. unfold serve, handler, get.
  rewrite Hm, str_eqb_refl, Hn. cbn [negb]. rewrite Hi, Hk, Ht. cbn [negb].
  eexists. split; reflexivity.
Qed.


End HandlerProperties.

Lemma empty_image_rejected_witness :
  named (body (post (image_body []))) (lit "image") = JString []
  /\ handler v8_type_error_message sample_env (post (image_body []))
     = Done (Respond 400 (ErrorBody (lit "Image is required"))).
Proof.
  split; [reflexivity |].
  apply (empty_image_rejected v8_type_error_message sample_env
           (post (image_body [])) eq_refl).
  reflexivity.
Defined.

(** C2 fails as stated: an image of three spaces is truthy, and with a key
    configured the handler calls the gateway. *)
Lemma whitespace_image_reaches_gateway :
  invokes_gateway
    (handler v8_type_error_message sample_env (post (image_body (lit "   "))))
  = true.
Proof. reflexivity. Qed.

Lemma unreadable_body_outcome_witness :
  method (post JNull) = lit "POST"
  /\ handler v8_type_error_message sample_env (post JNull)
     = Done (Respond 500
               (ErrorBody (lit "Cannot read properties of null (reading 'image')"))).
Proof.
  split; [reflexivity |].
  apply (unreadable_body_outcome v8_type_error_message sample_env
           (post JNull) eq_refl).
  reflexivity.
Defined.

(** C10 fails as stated: a body that is a string is not an object, yet
    reading [image] from it does not throw and the answer is 400. *)
Lemma string_body_is_bad_request :
  handler v8_type_error_message sample_env (post (JString (lit "hello")))
  = Done (Respond 400 (ErrorBody (lit "Image is required"))).
Proof. reflexivity. Qed.



(** ** Tier 1 and the fallback *)


Lemma lookup_set_same (props : list (jsstring * JSValue)) k v :
  lookup k (set_prop props k v) = v.
Proof.
  induction props as [| [k' v'] rest IH]; simpl.
  - rewrite str_eqb_refl. reflexivity.
  - destruct (str_eqb k k') eqn:E; simpl; rewrite E; auto.
Qed.

Lemma lookup_set_other (props : list (jsstring * JSValue)) k k' v :
  k' <> k -> lookup k' (set_prop props k v) = lookup k' props.
Proof.
  intros Hne. induction props as [| [k0 v0] rest IH]; simpl.
  - rewrite (str_eqb_neq _ _ Hne). reflexivity.
  - destruct (str_eqb k k0) eqn:E; simpl.
    + apply str_eqb_eq in E. subst k0.
      rewrite (str_eqb_neq _ _ Hne). reflexivity.
    + destruct (str_eqb k' k0); auto.
Qed.

(** A value that passes the structure check is an object. *)
Lemma valid_structure_object (recipe : JSValue) :
  invalid_structure recipe = false -> exists props, recipe = JObject props.
Proof.
  destruct recipe; simpl; try discriminate. eauto.
Qed.

(** What comes out of the structure check and the coercions: an object
    with a truthy title and two arrays. *)
Lemma validate_and_coerce_shape (recipe out : JSValue) :
  validate_and_coerce recipe = Some out ->
  invalid_structure out = false
  /\ truthy (named out (lit "title")) = true
  /\ isArray (named out (lit "ingredients")) = true
  /\ isArray (named out (lit "instructions")) = true.
Proof.
  unfold validate_and_coerce.
  destruct (nullish recipe); [discriminate |].
  destruct (invalid_structure recipe) eqn:Hv; [discriminate |].
  intros H. injection H as <-.
  destruct (valid_structure_object _ Hv) as [props ->].
  unfold invalid_structure in Hv. simpl in Hv.
  apply orb_false_iff in Hv. destruct Hv as [Hv Hins].
  apply orb_false_iff in Hv. destruct Hv as [Ht Hing].
  rewrite negb_false_iff in *.
  set (ING := lit "ingredients") in *.
  set (INS := lit "instructions") in *.
  set (TIT := lit "title") in *.
  assert (D1 : TIT <> ING) by (vm_compute; discriminate).
  assert (D2 : TIT <> INS) by (vm_compute; discriminate).
  assert (D3 : INS <> ING) by (vm_compute; discriminate).
  assert (D4 : ING <> INS) by (vm_compute; discriminate).
  assert (S1 : exists p1, ensure_array ING (JObject props) = JObject p1
                 /\ lookup TIT p1 = lookup TIT props
                 /\ lookup INS p1 = lookup INS props
                 /\ isArray (lookup ING p1) = true).
  { unfold ensure_array. simpl.
    destruct (isArray (lookup ING props)) eqn:A.
    - exists props. auto.
    - eexists. split; [reflexivity |].
      rewrite !lookup_set_other by assumption.
      rewrite lookup_set_same. auto. }
  destruct S1 as (p1 & -> & T1 & I1 & A1).
  assert (S2 : exists p2, ensure_array INS (JObject p1) = JObject p2
                 /\ lookup TIT p2 = lookup TIT props
                 /\ isArray (lookup ING p2) = true
                 /\ isArray (lookup INS p2) = true).
  { unfold ensure_array. simpl.
    destruct (isArray (lookup INS p1)) eqn:A.
    - exists p1. auto.
    - eexists. split; [reflexivity |].
      rewrite !lookup_set_other by assumption.
      rewrite lookup_set_same. auto. }
  destruct S2 as (p2 & -> & T2 & A2 & A3).
  unfold invalid_structure. simpl. fold TIT ING INS.
  rewrite T2, Ht.
  destruct (lookup ING p2); try discriminate.
  destruct (lookup INS p2); try discriminate.
  auto.
Qed.

(** C9: a recipe that passes the structure check and whose ingredients and
    instructions are arrays comes out of normalisation as it went in. *)
Theorem normalization_is_noop_on_normalized (recipe : JSValue) :
  invalid_structure recipe = false ->
  isArray (named recipe (lit "ingredients")) = true ->
  isArray (named recipe (lit "instructions")) = true ->
  validate_and_coerce recipe = Some recipe.
Proof.
  intros Hv Hing Hins. unfold validate_and_coerce.
  destruct (valid_structure_object _ Hv) as [props ->].
  simpl nullish. cbv iota. rewrite Hv.
  unfold ensure_array. rewrite Hing. rewrite Hins. reflexivity.
Qed.

(** Normalising twice is normalising once. *)
Lemma validate_and_coerce_idempotent (recipe out : JSValue) :
  validate_and_coerce recipe = Some out -> validate_and_coerce out = Some out.
Proof.
  intros H. destruct (validate_and_coerce_shape _ _ H) as (Hv & _ & Hing & Hins).
  unfold validate_and_coerce.
  destruct (valid_structure_object _ Hv) as [props ->].
  simpl nullish. cbv iota. rewrite Hv.
  unfold ensure_array. rewrite Hing. rewrite Hins. reflexivity.
Qed.


Lemma push_new_nonempty (acc : list jsstring) (cleaned : jsstring) :
  Forall (fun s => s <> []) acc ->
  Forall (fun s => s <> []) (push_new acc cleaned).
Proof.
  intros H. unfold push_new.
  destruct cleaned as [| c r]; simpl; [exact H |].
  destruct (negb (includes acc (c :: r))); [| exact H].
  apply Forall_app. split; [exact H |].
  constructor; [discriminate | constructor].
Qed.

Lemma ingredients_loop_nonempty (lines : list jsstring) :
  forall flag acc,
    Forall (fun s => s <> []) acc ->
    Forall (fun s => s <> []) (ingredients_loop lines flag acc).
Proof.
  induction lines as [| line rest IH]; intros flag acc H; simpl; [exact H |].
  destruct (test ingredients_re (trim line)); [apply IH; exact H |].
  destruct (test sections_re (trim line)); [apply IH; exact H |].
  destruct (flag || test bullet_re (trim line)); apply IH;
    [apply push_new_nonempty |]; exact H.
Qed.

Lemma instructions_loop_nonempty (lines : list jsstring) :
  forall flag acc,
    Forall (fun s => s <> []) acc ->
    Forall (fun s => s <> []) (instructions_loop lines flag acc).
Proof.
  induction lines as [| line rest IH]; intros flag acc H; simpl; [exact H |].
  destruct (test sections_re (trim line)); [apply IH; exact H |].
  destruct (flag || test step_re (trim line)); apply IH;
    [apply push_new_nonempty |]; exact H.
Qed.

Lemma or_placeholder_nonempty (arr : list jsstring) (placeholder : jsstring) :
  placeholder <> [] ->
  Forall (fun s => s <> []) arr ->
  nonempty_texts (or_placeholder arr placeholder).
Proof.
  intros Hp H. destruct arr as [| a r]; simpl.
  - split; [discriminate | constructor; [exact Hp | constructor]].
  - split; [discriminate | exact H].
Qed.

(** The fallback never returns an empty list, nor an empty entry. *)
Lemma fallback_lists_nonempty (text : jsstring) :
  nonempty_texts (ingredients (extractRecipeFromText text))
  /\ nonempty_texts (instructions (extractRecipeFromText text)).
Proof.
  unfold extractRecipeFromText. simpl. split.
  - apply or_placeholder_nonempty; [vm_compute; discriminate |].
    apply ingredients_loop_nonempty. constructor.
  - apply or_placeholder_nonempty; [vm_compute; discriminate |].
    apply instructions_loop_nonempty. constructor.
Qed.

(** C1, as amended: a recipe is returned with status 200 only, for a
    completion that is a string.  From Tier 1 it has a truthy title and
    arrays for ingredients and instructions; from the fallback its
    ingredients and instructions are non-empty sequences of non-empty
    text. *)
Theorem returned_recipe_shape (content : JSValue) (code : N) (r : JSValue) :
  respond_from_content content = Respond code (RecipeBody r) ->
  exists text,
    content = JString text /\ code = 200
    /\ ((tier1 text = Some r
         /\ truthy (named r (lit "title")) = true
         /\ isArray (named r (lit "ingredients")) = true
         /\ isArray (named r (lit "instructions")) = true)
        \/ (tier1 text = None
            /\ r = recipe_value (extractRecipeFromText text)
            /\ named r (lit "ingredients")
               = strings (ingredients (extractRecipeFromText text))
            /\ named r (lit "instructions")
               = strings (instructions (extractRecipeFromText text))
            /\ nonempty_texts (ingredients (extractRecipeFromText text))
            /\ nonempty_texts (instructions (extractRecipeFromText text)))).
Proof.
  intros H. destruct content; simpl in H; try discriminate.
  exists s. split; [reflexivity |].
  destruct (tier1 s) as [recipe |] eqn:T.
  - injection H as <- <-. split; [reflexivity |]. left.
    split; [reflexivity |].
    unfold tier1 in T.
    destruct (json_candidate s) as [js |]; [| discriminate].
    destruct (JSON_parse js); [| discriminate].
    destruct (validate_and_coerce_shape _ _ T) as (_ & Ht & Hi & Hs). auto.
  - injection H as <- <-. split; [reflexivity |]. right.
    destruct (fallback_lists_nonempty s) as [Hi Hs].
    repeat split; try assumption; apply Hi || apply Hs.
Qed.

(** C1 fails as stated: this well-formed Tier-1 reply is returned with a
    title of one space and empty ingredients and instructions. *)
Lemma hollow_recipe_escapes :
  respond_from_content (JString hollow_recipe_text)
  = Respond 200
      (RecipeBody
         (JObject [(lit "title", JString (lit " "));
                   (lit "ingredients", JArray []);
                   (lit "instructions", JArray [])])).
Proof. vm_compute. reflexivity. Qed.


Lemma normalization_is_noop_on_normalized_witness :
  invalid_structure normal_recipe = false
  /\ validate_and_coerce normal_recipe = Some normal_recipe.
Proof.
  split; [reflexivity |].
  apply (normalization_is_noop_on_normalized normal_recipe);
    reflexivity.
Defined.


Lemma returned_recipe_shape_witness :
  respond_from_content (JString pasta_text)
  = Respond 200 (RecipeBody (recipe_value (extractRecipeFromText pasta_text)))
  /\ exists text,
      JString pasta_text = JString text /\ 200 = 200
      /\ ((tier1 text = Some (recipe_value (extractRecipeFromText pasta_text))
           /\ truthy (named (recipe_value (extractRecipeFromText pasta_text))
                        (lit "title")) = true
           /\ isArray (named (recipe_value (extractRecipeFromText pasta_text))
                         (lit "ingredients")) = true
           /\ isArray (named (recipe_value (extractRecipeFromText pasta_text))
                         (lit "instructions")) = true)
          \/ (tier1 text = None
              /\ recipe_value (extractRecipeFromText pasta_text)
                 = recipe_value (extractRecipeFromText text)
              /\ named (recipe_value (extractRecipeFromText pasta_text))
                   (lit "ingredients")
                 = strings (ingredients (extractRecipeFromText text))
              /\ named (recipe_value (extractRecipeFromText pasta_text))
                   (lit "instructions")
                 = strings (instructions (extractRecipeFromText text))
              /\ nonempty_texts (ingredients (extractRecipeFromText text))
              /\ nonempty_texts (instructions (extractRecipeFromText text)))).
Proof.
  assert (H : respond_from_content (JString pasta_text)
              = Respond 200
                  (RecipeBody (recipe_value (extractRecipeFromText pasta_text))))
    by (vm_compute; reflexivity).
  split; [exact H |].
  exact (returned_recipe_shape _ _ _ H).
Defined.

(** ** The backtracking matcher *)

Lemma star_greedy_stop {A} (p : char16 -> bool) c rest (k : jsstring -> option A) :
  p c = false -> star_greedy p (c :: rest) k = k (c :: rest).
Proof. intros H. simpl. rewrite H. reflexivity. Qed.

Lemma star_greedy_app {A} (p : char16 -> bool) ws rest (k : jsstring -> option A) x :
  Forall (fun c => p c = true) ws ->
  star_greedy p rest k = Some x ->
  star_greedy p (ws ++ rest) k = Some x.
Proof.
  intros Hws Hk. induction Hws as [| c ws Hc _ IH]; simpl; [exact Hk |].
  rewrite Hc, IH. reflexivity.
Qed.






Lemma fence_word_fails (c : char16) (t : jsstring) (cap : option jsstring)
      {A} (k : jsstring -> option jsstring -> option A) :
  c <> 96 -> run (word "```") (c :: t) cap k = None.
Proof.
  intros H. apply N.eqb_neq in H.
  change (run (word "```") (c :: t) cap k)
    with (if c =? 96 then run (Seq (Cls (one 96)) (Cls (one 96))) t cap k else None).
  rewrite H. reflexivity.
Qed.



Lemma fence_not_before (pre before s : jsstring) :
  ~ In 96 pre ->
  search (expr fence_re) before (pre ++ s)
  = search (expr fence_re) (rev pre ++ before) s.
Proof.
  revert before. induction pre as [| c pre IH]; intros before H; [reflexivity |].
  cbn [app search].
  assert (M : match_here (expr fence_re) (c :: pre ++ s) = None).
  { unfold match_here, fence_re. cbn [expr run].
    apply fence_word_fails. intros ->. apply H. left. reflexivity. }
  rewrite M. rewrite IH.
  - cbn [rev]. rewrite <- app_assoc. reflexivity.
  - intros Hin. apply H. right. exact Hin.
Qed.










(** ** Lines *)







Lemma drop_while_stop (p : char16 -> bool) c r :
  p c = false -> drop_while p (c :: r) = c :: r.
Proof. intros H. simpl. rewrite H. reflexivity. Qed.

Lemma trim_trimmed (s : jsstring) : trimmed s -> trim s = s.
Proof.
  intros (Hne & Hh & Hl). unfold trim.
  destruct s as [| c r]; [congruence |]. simpl hd in Hh.
  rewrite drop_while_stop by exact Hh.
  destruct (exists_last Hne) as (s' & z & E). rewrite E in *.
  rewrite last_last in Hl. rewrite rev_unit.
  rewrite drop_while_stop by exact Hl.
  rewrite <- rev_unit. apply rev_involutive.
Qed.










(** ** The list patterns on bulleted and numbered lines *)






(** ** The two loops on a sectioned text *)








(** ** Texts without a brace *)

Lemma firstn_incl (n : nat) (l : jsstring) : incl (firstn n l) l.
Proof.
  intros c H. rewrite <- (firstn_skipn n l). apply in_or_app. left. exact H.
Qed.

Lemma skipn_incl (n : nat) (l : jsstring) : incl (skipn n l) l.
Proof.
  intros c H. rewrite <- (firstn_skipn n l). apply in_or_app. right. exact H.
Qed.

Lemma substring_incl (s : jsstring) (a b : Z) : incl (substring s a b) s.
Proof.
  unfold substring. eapply incl_tran; [apply firstn_incl | apply skipn_incl].
Qed.

Lemma drop_while_incl (p : char16 -> bool) (s : jsstring) :
  incl (drop_while p s) s.
Proof.
  induction s as [| c r IH]; simpl; [apply incl_refl |].
  destruct (p c); [apply incl_tl; exact IH | apply incl_refl].
Qed.

Lemma star_greedy_incl {A} (p : char16 -> bool) (s : jsstring)
      (k : jsstring -> option A) (x : A) :
  star_greedy p s k = Some x -> exists s', k s' = Some x /\ incl s' s.
Proof.
  induction s as [| c r IH]; simpl; intros H.
  - exists []. split; [exact H | apply incl_refl].
  - destruct (p c).
    + destruct (star_greedy p r k) eqn:E.
      * injection H as ->. destruct (IH eq_refl) as (s' & Hk & Hi).
        exists s'. split; [exact Hk | apply incl_tl; exact Hi].
      * exists (c :: r). split; [exact H | apply incl_refl].
    + exists (c :: r). split; [exact H | apply incl_refl].
Qed.

Lemma star_lazy_incl {A} (p : char16 -> bool) (s : jsstring)
      (k : jsstring -> option A) (x : A) :
  star_lazy p s k = Some x -> exists s', k s' = Some x /\ incl s' s.
Proof.
  induction s as [| c r IH]; simpl; intros H.
  - destruct (k []) eqn:E; [| discriminate].
    exists []. split; [congruence | apply incl_refl].
  - destruct (k (c :: r)) eqn:E.
    + exists (c :: r). split; [congruence | apply incl_refl].
    + destruct (p c); [| discriminate].
      destruct (IH H) as (s' & Hk & Hi).
      exists s'. split; [exact Hk | apply incl_tl; exact Hi].
Qed.

(** Whatever the matcher hands on, the rest and a new capture hold only
    characters of the input. *)
Lemma run_incl {A} (r : regex) :
  forall (s : jsstring) (cap : option jsstring)
         (k : jsstring -> option jsstring -> option A) (x : A),
    run r s cap k = Some x ->
    exists s' cap',
      k s' cap' = Some x /\ incl s' s
      /\ (cap' = cap \/ exists g, cap' = Some g /\ incl g s).
Proof.
  induction r as [| p | a IHa b IHb | a IHa b IHb | a IHa | p | p | p | a IHa];
    intros s cap k x H; cbn [run] in H.
  - exists s, cap. split; [exact H | split; [apply incl_refl | left; reflexivity]].
  - destruct s as [| c t]; [discriminate |]. destruct (p c); [| discriminate].
    exists t, cap. split; [exact H |].
    split; [apply incl_tl, incl_refl | left; reflexivity].
  - destruct (IHa _ _ _ _ H) as (s1 & c1 & H1 & I1 & C1).
    destruct (IHb _ _ _ _ H1) as (s2 & c2 & H2 & I2 & C2).
    exists s2, c2. split; [exact H2 |].
    split; [eapply incl_tran; eassumption |].
    destruct C2 as [-> | (g & -> & Hg)]; [exact C1 |].
    right. exists g. split; [reflexivity | eapply incl_tran; eassumption].
  - destruct (run a s cap k) eqn:E.
    + injection H as ->. apply (IHa _ _ _ _ E).
    + apply (IHb _ _ _ _ H).
  - destruct (run a s cap k) eqn:E.
    + injection H as ->. apply (IHa _ _ _ _ E).
    + exists s, cap.
      split; [exact H | split; [apply incl_refl | left; reflexivity]].
  - destruct (star_greedy_incl _ _ _ _ H) as (s' & Hk & Hi).
    exists s', cap. split; [exact Hk | split; [exact Hi | left; reflexivity]].
  - destruct s as [| c t]; [discriminate |]. destruct (p c); [| discriminate].
    destruct (star_greedy_incl _ _ _ _ H) as (s' & Hk & Hi).
    exists s', cap. split; [exact Hk |].
    split; [apply incl_tl; exact Hi | left; reflexivity].
  - destruct (star_lazy_incl _ _ _ _ H) as (s' & Hk & Hi).
    exists s', cap. split; [exact Hk | split; [exact Hi | left; reflexivity]].
  - destruct (IHa _ _ _ _ H) as (s1 & c1 & H1 & I1 & _).
    eexists s1, _. split; [exact H1 |]. split; [exact I1 |].
    right. eexists. split; [reflexivity | apply firstn_incl].
Qed.

Lemma run_keeps_capture {A} (r : regex) :
  forall (s g : jsstring) (k : jsstring -> option jsstring -> option A) (x : A),
    run r s (Some g) k = Some x -> exists s' g', k s' (Some g') = Some x.
Proof.
  induction r as [| p | a IHa b IHb | a IHa b IHb | a IHa | p | p | p | a IHa];
    intros s g k x H; cbn [run] in H.
  - eauto.
  - destruct s as [| c t]; [discriminate |]. destruct (p c); [eauto | discriminate].
  - destruct (IHa _ _ _ _ H) as (s1 & g1 & H1). apply (IHb _ _ _ _ H1).
  - destruct (run a s (Some g) k) eqn:E.
    + injection H as ->. apply (IHa _ _ _ _ E).
    + apply (IHb _ _ _ _ H).
  - destruct (run a s (Some g) k) eqn:E.
    + injection H as ->. apply (IHa _ _ _ _ E).
    + eauto.
  - destruct (star_greedy_incl _ _ _ _ H) as (s' & Hk & _). eauto.
  - destruct s as [| c t]; [discriminate |]. destruct (p c); [| discriminate].
    destruct (star_greedy_incl _ _ _ _ H) as (s' & Hk & _). eauto.
  - destruct (star_lazy_incl _ _ _ _ H) as (s' & Hk & _). eauto.
  - destruct (IHa _ _ _ _ H) as (s1 & g1 & H1). eauto.
Qed.

Lemma run_sets_capture {A} (r : regex) :
  always_captures r = true ->
  forall (s : jsstring) (cap : option jsstring)
         (k : jsstring -> option jsstring -> option A) (x : A),
    run r s cap k = Some x -> exists s' g, k s' (Some g) = Some x.
Proof.
  induction r as [| p | a IHa b IHb | a IHa b IHb | a IHa | p | p | p | a IHa];
    cbn [always_captures]; intros C s cap k x H; try discriminate;
    cbn [run] in H.
  - destruct (always_captures a) eqn:Ca.
    + destruct (IHa eq_refl _ _ _ _ H) as (s1 & g1 & H1).
      apply (run_keeps_capture _ _ _ _ _ H1).
    + destruct (run_incl _ _ _ _ _ H) as (s1 & c1 & H1 & _).
      apply (IHb C _ _ _ _ H1).
  - apply andb_true_iff in C. destruct C as [Ca Cb].
    destruct (run a s cap k) eqn:E.
    + injection H as ->. apply (IHa Ca _ _ _ _ E).
    + apply (IHb Cb _ _ _ _ H).
  - destruct (run_incl _ _ _ _ _ H) as (s1 & c1 & H1 & _). eauto.
Qed.

Lemma search_group1 (r : regex) (s : jsstring) :
  always_captures r = true ->
  forall before m, search r before s = Some m -> exists g, m_group1 m = Some g.
Proof.
  intros C. induction s as [| c t IH]; intros before m H; cbn [search] in H.
  - destruct (match_here r []) as [[cap rest] |] eqn:E; [| discriminate].
    injection H as <-. unfold match_here in E.
    destruct (run_sets_capture _ C _ _ _ _ E) as (s' & g & Hk).
    injection Hk as <- _. cbn. eauto.
  - destruct (match_here r (c :: t)) as [[cap rest] |] eqn:E.
    + injection H as <-. unfold match_here in E.
      destruct (run_sets_capture _ C _ _ _ _ E) as (s' & g & Hk).
      injection Hk as <- _. cbn. eauto.
    + apply (IH _ _ H).
Qed.

(** In a match of a pattern that always captures, group 1 is set. *)
Lemma exec_group1 (p : pattern) (s : jsstring) (m : match_result) :
  always_captures (expr p) = true ->
  exec p s = Some m -> exists g, m_group1 m = Some g.
Proof.
  intros C. unfold exec. destruct (anchored p).
  - destruct (match_here (expr p) s) as [[cap rest] |] eqn:E; [| discriminate].
    intros H. injection H as <-. unfold match_here in E.
    destruct (run_sets_capture _ C _ _ _ _ E) as (s' & g & Hk).
    injection Hk as <- _. cbn. eauto.
  - apply (search_group1 _ _ C).
Qed.

Lemma title_and_fence_capture :
  always_captures (expr title_re) = true
  /\ always_captures (expr fence_re) = true.
Proof. split; reflexivity. Qed.

Lemma search_group_incl (r : regex) (s : jsstring) :
  forall before m g,
    search r before s = Some m -> m_group1 m = Some g -> incl g s.
Proof.
  induction s as [| c t IH]; intros before m g H Hg; cbn [search] in H.
  - destruct (match_here r []) as [[cap rest] |] eqn:E; [| discriminate].
    injection H as <-. cbn [m_group1] in Hg. subst cap.
    unfold match_here in E.
    destruct (run_incl _ _ _ _ _ E) as (s' & cap' & Hk & _ & C).
    injection Hk as -> _.
    destruct C as [C | (g' & C & Hi)]; [discriminate |].
    injection C as ->. exact Hi.
  - destruct (match_here r (c :: t)) as [[cap rest] |] eqn:E.
    + injection H as <-. cbn [m_group1] in Hg. subst cap.
      unfold match_here in E.
      destruct (run_incl _ _ _ _ _ E) as (s' & cap' & Hk & _ & C).
      injection Hk as -> _.
      destruct C as [C | (g' & C & Hi)]; [discriminate |].
      injection C as ->. exact Hi.
    + apply incl_tl. apply (IH _ _ _ H Hg).
Qed.

(** The text handed to [JSON.parse] holds only characters of the
    completion. *)
Lemma json_candidate_incl (content jsonString : jsstring) :
  json_candidate content = Some jsonString -> incl jsonString content.
Proof.
  unfold json_candidate.
  destruct (exec fence_re content) as [m |] eqn:E.
  - destruct (m_group1 m) as [g |] eqn:G; [| discriminate].
    assert (Hg : incl g content).
    { unfold exec in E. change (anchored fence_re) with false in E.
      cbv iota in E. apply (search_group_incl _ _ _ _ _ E G). }
    destruct (_ && _); intros H; injection H as <-;
      [eapply incl_tran; [apply substring_incl | exact Hg] | exact Hg].
  - destruct (_ && _); intros H; injection H as <-;
      [apply substring_incl | apply incl_refl].
Qed.
(** ** What [JSON.parse] leaves of its input *)

Lemma rest_refl (s : jsstring) : rest_of s s.
Proof. exists []. reflexivity. Qed.

Lemma rest_tl (r s : jsstring) (c : char16) : rest_of r s -> rest_of r (c :: s).
Proof. intros [pre ->]. exists (c :: pre). reflexivity. Qed.

Lemma rest_trans (a b c : jsstring) : rest_of a b -> rest_of b c -> rest_of a c.
Proof.
  intros [p ->] [q ->]. exists (q ++ p). rewrite app_assoc. reflexivity.
Qed.

Lemma rest_uncons (r s : jsstring) (c : char16) :
  rest_of (c :: r) s -> rest_of r s.
Proof.
  intros [pre ->]. exists (pre ++ [c]). rewrite <- app_assoc. reflexivity.
Qed.

Lemma rest_head (r s : jsstring) (c : char16) : rest_of (c :: r) s -> In c s.
Proof. intros [pre ->]. apply in_or_app. right. left. reflexivity. Qed.

Lemma rest_incl (r s : jsstring) : rest_of r s -> incl r s.
Proof. intros [pre ->] x H. apply in_or_app. right. exact H. Qed.

Lemma rest_length (r s : jsstring) :
  rest_of r s -> (List.length r <= List.length s)%nat.
Proof. intros [pre ->]. rewrite length_app. lia. Qed.

Lemma drop_while_rest (p : char16 -> bool) (s : jsstring) :
  rest_of (drop_while p s) s.
Proof.
  induction s as [| c r IH]; simpl; [apply rest_refl |].
  destruct (p c); [apply rest_tl; exact IH | apply rest_refl].
Qed.

Lemma skip_ws_rest (s : jsstring) : rest_of (skip_ws s) s.
Proof. apply drop_while_rest. Qed.

Lemma parse_string_rest (n : nat) :
  forall s acc str r,
    (List.length s <= n)%nat ->
    parse_string s acc = Some (str, r) -> rest_of r s.
Proof.
  induction n as [| n IH]; intros s acc str r Hn H.
  - destruct s; [discriminate | simpl in Hn; lia].
  - destruct s as [| c s]; [discriminate |]. cbn [parse_string] in H.
    cbn [List.length] in Hn.
    destruct (c =? 34).
    { injection H as _ <-. apply rest_tl, rest_refl. }
    destruct (c =? 92).
    + destruct s as [| e s]; [discriminate |]. cbn [List.length] in Hn.
      destruct (e =? 117).
      * destruct s as [| h1 [| h2 [| h3 [| h4 s]]]]; try discriminate.
        cbn [List.length] in Hn.
        destruct (hex4 h1 h2 h3 h4); [| discriminate].
        apply IH in H; [| lia].
        do 6 apply rest_tl. exact H.
      * destruct (unescape e); [| discriminate].
        apply IH in H; [| lia]. do 2 apply rest_tl. exact H.
    + destruct (c <? 32); [discriminate |].
      apply IH in H; [| lia]. apply rest_tl. exact H.
Qed.

Lemma take_digits_rest (s ds r : jsstring) :
  take_digits s = (ds, r) -> rest_of r s.
Proof.
  revert ds r. induction s as [| c s IH]; intros ds r H; simpl in H.
  - injection H as _ <-. apply rest_refl.
  - destruct (is_digit c).
    + destruct (take_digits s) as [ds' r'] eqn:E. injection H as _ <-.
      apply rest_tl. apply (IH _ _ eq_refl).
    + injection H as _ <-. apply rest_refl.
Qed.

Lemma sign_part_rest (s r : jsstring) (b : bool) :
  sign_part s = (b, r) -> rest_of r s.
Proof.
  unfold sign_part. intros H. destruct s as [| c s].
  - injection H as _ <-. apply rest_refl.
  - destruct (c =? 45); injection H as _ <-;
      [apply rest_tl, rest_refl | apply rest_refl].
Qed.

Lemma int_part_rest (s ip r : jsstring) : int_part s = (ip, r) -> rest_of r s.
Proof.
  unfold int_part. intros H. destruct s as [| c s].
  - injection H as _ <-. apply rest_refl.
  - destruct (c =? 48).
    + injection H as _ <-. apply rest_tl, rest_refl.
    + apply (take_digits_rest _ _ _ H).
Qed.

Lemma frac_part_rest (s fp r : jsstring) :
  frac_part s = Some (fp, r) -> rest_of r s.
Proof.
  unfold frac_part. intros H. destruct s as [| c s].
  - injection H as _ <-. apply rest_refl.
  - destruct (c =? 46).
    + destruct (take_digits s) as [ds r'] eqn:E.
      destruct ds; [discriminate |]. injection H as _ <-.
      apply rest_tl. apply (take_digits_rest _ _ _ E).
    + injection H as _ <-. apply rest_refl.
Qed.

Lemma exp_sign_rest (s r : jsstring) (b : bool) :
  exp_sign s = (b, r) -> rest_of r s.
Proof.
  unfold exp_sign. intros H. destruct s as [| d s].
  - injection H as _ <-. apply rest_refl.
  - destruct (d =? 45); [injection H as _ <-; apply rest_tl, rest_refl |].
    destruct (d =? 43); injection H as _ <-;
      [apply rest_tl, rest_refl | apply rest_refl].
Qed.

Lemma exp_part_rest (s r : jsstring) (ex : Z) :
  exp_part s = Some (ex, r) -> rest_of r s.
Proof.
  unfold exp_part. intros H. destruct s as [| c s].
  - injection H as _ <-. apply rest_refl.
  - destruct ((c =? 101) || (c =? 69)).
    + destruct (exp_sign s) as [eneg r1] eqn:E1.
      destruct (take_digits r1) as [ep r2] eqn:E2.
      destruct ep; [discriminate |]. injection H as _ <-.
      apply rest_tl. eapply rest_trans.
      * apply (take_digits_rest _ _ _ E2).
      * apply (exp_sign_rest _ _ _ E1).
    + injection H as _ <-. apply rest_refl.
Qed.

Lemma parse_number_rest (s r : jsstring) (v : JSValue) :
  parse_number s = Some (v, r) -> rest_of r s /\ exists m e, v = JNumber m e.
Proof.
  unfold parse_number. intros H.
  destruct (sign_part s) as [neg s1] eqn:E1.
  destruct (int_part s1) as [ip s2] eqn:E2.
  destruct ip as [| d ip]; [discriminate |].
  destruct (frac_part s2) as [[fp s3] |] eqn:E3; [| discriminate].
  destruct (exp_part s3) as [[ex s4] |] eqn:E4; [| discriminate].
  injection H as <- <-. split; [| eauto].
  eapply rest_trans; [apply (exp_part_rest _ _ _ E4) |].
  eapply rest_trans; [apply (frac_part_rest _ _ _ E3) |].
  eapply rest_trans; [apply (int_part_rest _ _ _ E2) |].
  apply (sign_part_rest _ _ _ E1).
Qed.

Lemma strip_prefix_rest (p s r : jsstring) :
  strip_prefix p s = Some r -> rest_of r s.
Proof.
  revert s. induction p as [| a p IH]; intros s H; simpl in H.
  - injection H as <-. apply rest_refl.
  - destruct s as [| b s]; [discriminate |].
    destruct (a =? b); [| discriminate].
    apply rest_tl. apply (IH _ H).
Qed.

Lemma parse_scalar_rest (s r : jsstring) (v : JSValue) :
  parse_scalar s = Some (v, r) ->
  rest_of r s /\ forall props, v <> JObject props.
Proof.
  unfold parse_scalar. intros H.
  destruct (strip_prefix (lit "true") s) eqn:E1.
  { injection H as <- <-. split; [apply (strip_prefix_rest _ _ _ E1) | discriminate]. }
  destruct (strip_prefix (lit "false") s) eqn:E2.
  { injection H as <- <-. split; [apply (strip_prefix_rest _ _ _ E2) | discriminate]. }
  destruct (strip_prefix (lit "null") s) eqn:E3.
  { injection H as <- <-. split; [apply (strip_prefix_rest _ _ _ E3) | discriminate]. }
  destruct (parse_number_rest _ _ _ H) as (Hi & m & e & ->).
  split; [exact Hi | discriminate].
Qed.

(** The three parsers leave a rest of what they were given. *)
Lemma parsers_rest (fuel : nat) :
  (forall s v r, parse_value fuel s = Some (v, r) -> rest_of r s)
  /\ (forall s acc v r, parse_elements fuel s acc = Some (v, r) -> rest_of r s)
  /\ (forall s acc v r, parse_members fuel s acc = Some (v, r) -> rest_of r s).
Proof.
  induction fuel as [| f (IHv & IHe & IHm)].
  { repeat split; intros; discriminate. }
  repeat split.
  - intros s v r H. cbn [parse_value] in H.
    pose proof (skip_ws_rest s) as Hs.
    destruct (skip_ws s) as [| c t]; [discriminate |].
    pose proof (rest_uncons _ _ _ Hs) as Ht.
    destruct (c =? 123).
    { pose proof (skip_ws_rest t) as Hw.
      destruct (skip_ws t) as [| d t']; [discriminate |].
      destruct (d =? 125).
      - injection H as _ <-.
        apply (rest_trans _ _ _ (rest_uncons _ _ _ Hw) Ht).
      - eapply rest_trans; [apply (IHm _ _ _ _ H) | exact Ht]. }
    destruct (c =? 91).
    { pose proof (skip_ws_rest t) as Hw.
      destruct (skip_ws t) as [| d t']; [discriminate |].
      destruct (d =? 93).
      - injection H as _ <-.
        apply (rest_trans _ _ _ (rest_uncons _ _ _ Hw) Ht).
      - eapply rest_trans; [apply (IHe _ _ _ _ H) | exact Ht]. }
    destruct (c =? 34).
    { destruct (parse_string t []) as [[str t'] |] eqn:E; [| discriminate].
      injection H as _ <-.
      eapply rest_trans; [apply (parse_string_rest _ _ _ _ _ (le_n _) E) | exact Ht]. }
    apply parse_scalar_rest in H. destruct H as [H _].
    eapply rest_trans; [exact H | exact Hs].
  - intros s acc v r H. cbn [parse_elements] in H.
    destruct (parse_value f s) as [[v1 r1] |] eqn:E; [| discriminate].
    apply IHv in E.
    pose proof (skip_ws_rest r1) as Hw.
    destruct (skip_ws r1) as [| d t]; [discriminate |].
    assert (Ht : rest_of t s).
    { eapply rest_trans; [apply (rest_uncons _ _ _ Hw) | exact E]. }
    destruct (d =? 44).
    + eapply rest_trans; [apply (IHe _ _ _ _ H) | exact Ht].
    + destruct (d =? 93); [| discriminate]. injection H as _ <-. exact Ht.
  - intros s acc v r H. cbn [parse_members] in H.
    pose proof (skip_ws_rest s) as Hs.
    destruct (skip_ws s) as [| q t]; [discriminate |].
    destruct (q =? 34); [| discriminate].
    destruct (parse_string t []) as [[key r1] |] eqn:E1; [| discriminate].
    apply (parse_string_rest _ _ _ _ _ (le_n _)) in E1.
    pose proof (skip_ws_rest r1) as Hw1.
    destruct (skip_ws r1) as [| c r2]; [discriminate |].
    destruct (c =? 58); [| discriminate].
    destruct (parse_value f r2) as [[v1 r3] |] eqn:E2; [| discriminate].
    apply IHv in E2.
    pose proof (skip_ws_rest r3) as Hw3.
    destruct (skip_ws r3) as [| d r4]; [discriminate |].
    assert (Ht : rest_of r4 s).
    { eapply rest_trans; [apply (rest_uncons _ _ _ Hw3) |].
      eapply rest_trans; [exact E2 |].
      eapply rest_trans; [apply (rest_uncons _ _ _ Hw1) |].
      eapply rest_trans; [exact E1 |].
      apply (rest_uncons _ _ _ Hs). }
    destruct (d =? 44).
    + eapply rest_trans; [apply (IHm _ _ _ _ H) | exact Ht].
    + destruct (d =? 125); [| discriminate]. injection H as _ <-. exact Ht.
Qed.

(** Members end on a closing brace. *)
Lemma parse_members_brace (fuel : nat) :
  forall s acc v r, parse_members fuel s acc = Some (v, r) -> In 125 s.
Proof.
  induction fuel as [| f IH]; intros s acc v r H; [discriminate |].
  cbn [parse_members] in H.
  pose proof (skip_ws_rest s) as Hs.
  destruct (skip_ws s) as [| q t]; [discriminate |].
  destruct (q =? 34); [| discriminate].
  destruct (parse_string t []) as [[key r1] |] eqn:E1; [| discriminate].
  apply (parse_string_rest _ _ _ _ _ (le_n _)) in E1.
  pose proof (skip_ws_rest r1) as Hw1.
  destruct (skip_ws r1) as [| c r2]; [discriminate |].
  destruct (c =? 58); [| discriminate].
  destruct (parse_value f r2) as [[v1 r3] |] eqn:E2; [| discriminate].
  apply (proj1 (parsers_rest f)) in E2.
  pose proof (skip_ws_rest r3) as Hw3.
  destruct (skip_ws r3) as [| d r4]; [discriminate |].
  assert (Ht : rest_of (d :: r4) s).
  { eapply rest_trans; [exact Hw3 |].
    eapply rest_trans; [exact E2 |].
    eapply rest_trans; [apply (rest_uncons _ _ _ Hw1) |].
    eapply rest_trans; [exact E1 |].
    apply (rest_uncons _ _ _ Hs). }
  destruct (d =? 44) eqn:D1.
  - apply (rest_incl _ _ (rest_uncons _ _ _ Ht)). apply (IH _ _ _ _ H).
  - destruct (d =? 125) eqn:D2; [| discriminate].
    apply N.eqb_eq in D2. subst d. apply (rest_head _ _ _ Ht).
Qed.

Lemma parse_elements_array (fuel : nat) :
  forall s acc v r,
    parse_elements fuel s acc = Some (v, r) -> exists l, v = JArray l.
Proof.
  induction fuel as [| f IH]; intros s acc v r H; [discriminate |].
  cbn [parse_elements] in H.
  destruct (parse_value f s) as [[v1 r1] |]; [| discriminate].
  destruct (skip_ws r1) as [| d t]; [discriminate |].
  destruct (d =? 44); [apply (IH _ _ _ _ H) |].
  destruct (d =? 93); [| discriminate]. injection H as <- _. eauto.
Qed.

(** An object is parsed only from a text that holds both braces. *)
Lemma parse_value_object (fuel : nat) (s r : jsstring)
      (props : list (jsstring * JSValue)) :
  parse_value fuel s = Some (JObject props, r) -> In 123 s /\ In 125 s.
Proof.
  destruct fuel as [| f]; [discriminate |]. cbn [parse_value]. intros H.
  pose proof (skip_ws_rest s) as Hs.
  destruct (skip_ws s) as [| c t]; [discriminate |].
  destruct (c =? 123) eqn:C1.
  - apply N.eqb_eq in C1. subst c.
    split; [apply (rest_head _ _ _ Hs) |].
    apply (rest_incl _ _ (rest_uncons _ _ _ Hs)).
    pose proof (skip_ws_rest t) as Hw.
    destruct (skip_ws t) as [| d t']; [discriminate |].
    destruct (d =? 125) eqn:D.
    + apply N.eqb_eq in D. subst d. apply (rest_head _ _ _ Hw).
    + apply (parse_members_brace _ _ _ _ _ H).
  - destruct (c =? 91).
    { destruct (skip_ws t) as [| d t']; [discriminate |].
      destruct (d =? 93); [discriminate |].
      destruct (parse_elements_array _ _ _ _ _ H) as [l Hl]. discriminate. }
    destruct (c =? 34).
    { destruct (parse_string t []) as [[str t'] |]; discriminate. }
    apply parse_scalar_rest in H. destruct H as [_ H].
    exfalso. apply (H props). reflexivity.
Qed.

Lemma JSON_parse_object (text : jsstring) (props : list (jsstring * JSValue)) :
  JSON_parse text = Some (JObject props) -> In 123 text /\ In 125 text.
Proof.
  unfold JSON_parse.
  destruct (parse_value _ text) as [[v rest] |] eqn:E; [| discriminate].
  destruct (skip_ws rest); [| discriminate].
  intros H. injection H as ->. apply (parse_value_object _ _ _ _ E).
Qed.

(** ** The fuel of [JSON.parse] *)

(** Beyond twice the length of the text, fuel changes nothing: the parsers
    never stop for want of it. *)
Lemma parsers_fuel (n : nat) :
  (forall m s, (2 * List.length s + 1 <= n)%nat -> (n <= m)%nat ->
               parse_value m s = parse_value n s)
  /\ (forall m s acc, (2 * List.length s + 2 <= n)%nat -> (n <= m)%nat ->
                      parse_elements m s acc = parse_elements n s acc)
  /\ (forall m s acc, (2 * List.length s + 2 <= n)%nat -> (n <= m)%nat ->
                      parse_members m s acc = parse_members n s acc).
Proof.
  induction n as [| n (IHv & IHe & IHm)].
  { repeat split; intros; lia. }
  repeat split.
  - intros m s Hn Hm. destruct m as [| m]; [lia |]. cbn [parse_value].
    pose proof (rest_length _ _ (skip_ws_rest s)) as Ls.
    destruct (skip_ws s) as [| c t]; [reflexivity |]. cbn [List.length] in Ls.
    destruct (c =? 123).
    { destruct (skip_ws t) as [| d t']; [reflexivity |].
      destruct (d =? 125); [reflexivity |]. apply IHm; lia. }
    destruct (c =? 91).
    { destruct (skip_ws t) as [| d t']; [reflexivity |].
      destruct (d =? 93); [reflexivity |]. apply IHe; lia. }
    reflexivity.
  - intros m s acc Hn Hm. destruct m as [| m]; [lia |]. cbn [parse_elements].
    rewrite (IHv m s) by lia.
    destruct (parse_value n s) as [[v r] |] eqn:E; [| reflexivity].
    apply (proj1 (parsers_rest n)), rest_length in E.
    pose proof (rest_length _ _ (skip_ws_rest r)) as Lr.
    destruct (skip_ws r) as [| d t]; [reflexivity |]. cbn [List.length] in Lr.
    destruct (d =? 44); [| reflexivity]. apply IHe; lia.
  - intros m s acc Hn Hm. destruct m as [| m]; [lia |]. cbn [parse_members].
    pose proof (rest_length _ _ (skip_ws_rest s)) as Ls.
    destruct (skip_ws s) as [| q t]; [reflexivity |]. cbn [List.length] in Ls.
    destruct (q =? 34); [| reflexivity].
    destruct (parse_string t []) as [[key r1] |] eqn:E1; [| reflexivity].
    apply (parse_string_rest _ _ _ _ _ (le_n _)), rest_length in E1.
    pose proof (rest_length _ _ (skip_ws_rest r1)) as L1.
    destruct (skip_ws r1) as [| c r2]; [reflexivity |]. cbn [List.length] in L1.
    destruct (c =? 58); [| reflexivity].
    rewrite (IHv m r2) by lia.
    destruct (parse_value n r2) as [[v r3] |] eqn:E2; [| reflexivity].
    apply (proj1 (parsers_rest n)), rest_length in E2.
    pose proof (rest_length _ _ (skip_ws_rest r3)) as L3.
    destruct (skip_ws r3) as [| d r4]; [reflexivity |]. cbn [List.length] in L3.
    destruct (d =? 44); [| reflexivity]. apply IHm; lia.
Qed.

(** [JSON_parse] is the parser run with any larger amount of fuel. *)
Lemma JSON_parse_fuel (text : jsstring) (m : nat) :
  (2 * List.length text + 2 <= m)%nat ->
  parse_value m text = parse_value (2 * List.length text + 2) text.
Proof.
  intros H. apply (proj1 (parsers_fuel _)); lia.
Qed.

(** A value that is not an object fails the structure check. *)
Lemma validate_needs_object (recipe : JSValue) :
  (forall props, recipe <> JObject props) -> validate_and_coerce recipe = None.
Proof.
  intros H. unfold validate_and_coerce.
  destruct recipe; try reflexivity. exfalso. apply (H props). reflexivity.
Qed.

(** A completion that lacks an opening or a closing brace gets nothing
    from Tier 1: it is answered 200 with the fallback recipe, whose lists
    are never empty. *)
Lemma braceless_falls_through (text : jsstring) :
  ~ In 123 text \/ ~ In 125 text ->
  tier1 text = None
  /\ respond_from_content (JString text)
     = Respond 200 (RecipeBody (recipe_value (extractRecipeFromText text)))
  /\ nonempty_texts (ingredients (extractRecipeFromText text))
  /\ nonempty_texts (instructions (extractRecipeFromText text)).
Proof.
  intros Hb.
  assert (T : tier1 text = None).
  { unfold tier1.
    destruct (json_candidate text) as [js |] eqn:C; [| reflexivity].
    apply json_candidate_incl in C.
    destruct (JSON_parse js) as [recipe |] eqn:P; [| reflexivity].
    apply validate_needs_object. intros props ->.
    apply JSON_parse_object in P. destruct P as [P1 P2].
    destruct Hb as [Hb | Hb]; apply Hb, C; assumption. }
  split; [exact T |]. split; [cbn [respond_from_content]; rewrite T; reflexivity |].
  apply fallback_lists_nonempty.
Qed.

(** C6, at the failing input: the completion "Title: " holds no brace, goes
    to the fallback, and is answered with a recipe whose title is empty. *)
Theorem fallback_title_can_be_empty :
  indexOf label_only_text 123 = (-1)%Z
  /\ lastIndexOf label_only_text 125 = (-1)%Z
  /\ tier1 label_only_text = None
  /\ respond_from_content (JString label_only_text)
     = Respond 200 (RecipeBody (recipe_value (extractRecipeFromText label_only_text)))
  /\ title (extractRecipeFromText label_only_text) = []
  /\ invalid_structure (recipe_value (extractRecipeFromText label_only_text)) = true.
Proof. vm_compute. repeat split. Qed.

(* ================================================================== *)
(** * Further properties of the handler *)
(* ================================================================== *)

Section HandlerPaths.

(** The engine's wording of a [TypeError]. *)
Variable msg : JSValue -> jsstring -> jsstring.

(** X1: the gateway is called exactly when the request is a POST whose
    body can be read, whose [image] is truthy, and the key is configured
    and not empty. *)
Theorem gateway_called_iff (env : Env) (req : NextApiRequest) :
  invokes_gateway (handler msg env req) = true
  <-> (method req = lit "POST"
       /\ nullish (body req) = false
       /\ truthy (named (body req) (lit "image")) = true
       /\ env_truthy (OPENROUTER_API_KEY env) = true).
Proof.
  unfold handler, get, env_truthy.
  destruct (str_eqb (method req) (lit "POST")) eqn:Hm; cbn [negb].
  - apply str_eqb_eq in Hm.
    destruct (nullish (body req)); cbn [invokes_gateway catch_all].
    { split; [discriminate | intros (_ & H & _); discriminate]. }
    destruct (truthy (named (body req) (lit "image"))); cbn [negb invokes_gateway].
    + destruct (OPENROUTER_API_KEY env) as [k |]; [destruct (str_truthy k) |];
        cbn [invokes_gateway]; split; try discriminate; try tauto;
        intros (_ & _ & _ & H); discriminate.
    + split; [discriminate | intros (_ & _ & H & _); discriminate].
  - cbn [invokes_gateway]. split; [discriminate |].
    intros (H & _). rewrite H, str_eqb_refl in Hm. discriminate.
Qed.

(** X2: a POST with a truthy image is answered 500 "API configuration
    error" when the key is not set or is the empty string. *)
Theorem missing_key_is_configuration_error (env : Env) (req : NextApiRequest) :
  method req = lit "POST" ->
  nullish (body req) = false ->
  truthy (named (body req) (lit "image")) = true ->
  env_truthy (OPENROUTER_API_KEY env) = false ->
  handler msg env req
  = Done (Respond 500 (ErrorBody (lit "API configuration error"))).
Proof.
  intros Hm Hn Hi Hk. unfold handler, get.
  rewrite Hm, str_eqb_refl, Hn. cbn [negb]. rewrite Hi. cbn [negb].
  unfold env_truthy in Hk.
  destruct (OPENROUTER_API_KEY env) as [k |]; [rewrite Hk |]; reflexivity.
Qed.

(** X4: a reply whose status is not a success is never answered with a
    recipe, whatever its body holds: the answer is 500 with the status
    line, or with the message of what [text()] threw. *)
Theorem failed_reply_is_service_error (r : Response) :
  ok r = false ->
  gateway_outcome msg (Normal r)
  = Respond 500
      (ErrorBody
         (match text_result r with
          | Normal _ =>
              lit "Failed to generate recipe: " ++ number_to_string (status r)
              ++ lit " " ++ statusText r
          | Throw e => thrown_message e
          end)).
Proof.
  intros Hok. unfold gateway_outcome, after_fetch. cbn [bind].
  rewrite Hok. cbn [negb].
  destruct (text_result r) as [t | [m |]]; reflexivity.
Qed.

(** The completion of a reply that has one. *)
Lemma after_fetch_completion (r : Response) (data : JSValue) :
  ok r = true ->
  json_result r = Normal data ->
  nullish data = false ->
  lacks_completion data = false ->
  after_fetch msg (Normal r)
  = Normal (respond_from_content
              (named (named (index0 (named data (lit "choices"))) (lit "message"))
                     (lit "content"))).
Proof.
  intros Hok Hjson Hn Hl. unfold after_fetch. cbn [bind].
  rewrite Hok, Hjson. cbn [negb bind]. unfold get, get0. rewrite Hn. cbn [bind].
  unfold lacks_completion in Hl. cbv zeta in Hl.
  apply orb_false_iff in Hl. destruct Hl as [Hl H3].
  apply orb_false_iff in Hl. destruct Hl as [H1 H2].
  rewrite negb_false_iff in H1, H2, H3.
  assert (N1 : nullish (named data (lit "choices")) = false).
  { destruct (named data (lit "choices")); try discriminate; reflexivity. }
  assert (N2 : nullish (index0 (named data (lit "choices"))) = false).
  { destruct (index0 (named data (lit "choices"))); try discriminate; reflexivity. }
  assert (N3 : nullish (named (index0 (named data (lit "choices")))
                              (lit "message")) = false).
  { destruct (named (index0 (named data (lit "choices"))) (lit "message"));
      try discriminate; reflexivity. }
  rewrite H1. cbn [negb]. rewrite N1. cbn [bind].
  rewrite H2. cbn [negb]. rewrite N2. cbn [bind].
  rewrite H3. cbn [negb]. rewrite N3. cbn [bind]. reflexivity.
Qed.

(** X5: when the reply carries a completion, the answer is a recipe with
    status 200 if the completion's content is a string, and otherwise 500
    "Failed to parse recipe from AI response". *)
Theorem completion_content_decides (r : Response) (data : JSValue) :
  ok r = true ->
  json_result r = Normal data ->
  nullish data = false ->
  lacks_completion data = false ->
  let content :=
    named (named (index0 (named data (lit "choices"))) (lit "message"))
          (lit "content") in
  (forall text, content = JString text ->
     exists recipe,
       gateway_outcome msg (Normal r) = Respond 200 (RecipeBody recipe))
  /\ ((forall text, content <> JString text) ->
      gateway_outcome msg (Normal r)
      = Respond 500 (ErrorBody (lit "Failed to parse recipe from AI response"))).
Proof.
  intros Hok Hjson Hn Hl content.
  unfold gateway_outcome.
  rewrite (after_fetch_completion _ _ Hok Hjson Hn Hl). fold content.
  cbn [catch_all]. split.
  - intros text ->. cbn [respond_from_content].
    destruct (tier1 text); eauto.
  - intros H. destruct content; try reflexivity.
    exfalso. apply (H s). reflexivity.
Qed.

(** X6: a reply whose body is the JSON value [null] is answered 500 with
    the wording of the [TypeError] of reading [choices] from it, not with
    "Invalid response from AI service"; a body that [json()] cannot parse
    is answered 500 with the message of what it threw. *)
Theorem unreadable_reply_body (r : Response) :
  ok r = true ->
  (forall data, json_result r = Normal data -> nullish data = true ->
     gateway_outcome msg (Normal r)
     = Respond 500 (ErrorBody (msg data (lit "choices"))))
  /\ (forall e, json_result r = Throw e ->
        gateway_outcome msg (Normal r)
        = Respond 500 (ErrorBody (thrown_message e))).
Proof.
  intros Hok. unfold gateway_outcome, after_fetch. cbn [bind].
  rewrite Hok. cbn [negb]. split.
  - intros data -> Hn. cbn [bind]. unfold get. rewrite Hn. reflexivity.
  - intros e ->. destruct e; reflexivity.
Qed.

(** What is answered from a completion. *)
Lemma respond_from_content_codes (content : JSValue)
      (code : N) (json : GenerateRecipeResponse) :
  respond_from_content content = Respond code json ->
  (code = 200 /\ exists props, json = RecipeBody (JObject props))
  \/ (code = 500 /\ exists e, json = ErrorBody e).
Proof.
  intros H. destruct content; cbn [respond_from_content] in H;
    try (injection H as <- <-; right; eauto).
  destruct (tier1 s) as [r |] eqn:T; injection H as <- <-; left;
    (split; [reflexivity |]).
  - unfold tier1 in T.
    destruct (json_candidate s) as [js |]; [| discriminate].
    destruct (JSON_parse js); [| discriminate].
    destruct (validate_and_coerce_shape _ _ T) as (Hv & _).
    destruct (valid_structure_object _ Hv) as [props ->]. eauto.
  - unfold recipe_value. eauto.
Qed.

(** What the gateway step can answer. *)
Lemma gateway_outcome_codes (fetched : completion Response)
      (code : N) (json : GenerateRecipeResponse) :
  gateway_outcome msg fetched = Respond code json ->
  (code = 200 /\ exists props, json = RecipeBody (JObject props))
  \/ (code = 500 /\ exists e, json = ErrorBody e).
Proof.
  unfold gateway_outcome.
  assert (Ht : forall e, catch_all (Throw e) = Respond code json ->
                 (code = 200 /\ exists props, json = RecipeBody (JObject props))
                 \/ (code = 500 /\ exists e, json = ErrorBody e)).
  { intros e H. destruct e; injection H as <- <-; right; eauto. }
  assert (Hi : catch_all (invalid_response) = Respond code json ->
                 (code = 200 /\ exists props, json = RecipeBody (JObject props))
                 \/ (code = 500 /\ exists e, json = ErrorBody e)).
  { intros H. injection H as <- <-. right. eauto. }
  unfold after_fetch. destruct fetched as [r | e]; cbn [bind]; [| apply Ht].
  destruct (ok r); cbn [negb].
  - destruct (json_result r) as [data | e]; cbn [bind]; [| apply Ht].
    unfold get, get0.
    destruct (nullish data); cbn [bind]; [apply Ht |].
    destruct (truthy (named data (lit "choices"))); cbn [negb]; [| apply Hi].
    destruct (nullish (named data (lit "choices"))); cbn [bind]; [apply Ht |].
    destruct (truthy (index0 (named data (lit "choices")))); cbn [negb];
      [| apply Hi].
    destruct (nullish (index0 (named data (lit "choices")))); cbn [bind];
      [apply Ht |].
    destruct (truthy (named (index0 (named data (lit "choices"))) (lit "message")));
      cbn [negb]; [| apply Hi].
    destruct (nullish (named (index0 (named data (lit "choices"))) (lit "message")));
      cbn [bind]; [apply Ht |].
    cbn [catch_all]. apply respond_from_content_codes.
  - destruct (text_result r) as [t | e]; cbn [bind]; [| apply Ht].
    intros H. injection H as <- <-. right. eauto.
Qed.

(** The codes and bodies of the handler's answers. *)
Lemma serve_codes (fetch : GatewayRequest -> completion Response)
        (env : Env) (req : NextApiRequest)
        (code : N) (json : GenerateRecipeResponse) :
  serve msg fetch env req = Respond code json ->
  (code = 200 /\ exists props, json = RecipeBody (JObject props))
  \/ ((code = 400 \/ code = 405 \/ code = 500) /\ exists e, json = ErrorBody e).
Proof.
  unfold serve, handler, get.
  destruct (str_eqb (method req) (lit "POST")); cbn [negb].
  2: { intros H. injection H as <- <-. right. eauto. }
  destruct (nullish (body req)).
  { intros H. cbn [catch_all] in H. injection H as <- <-. right. eauto. }
  destruct (truthy (named (body req) (lit "image"))); cbn [negb].
  2: { intros H. injection H as <- <-. right. eauto. }
  assert (G : forall rq,
             gateway_outcome msg (fetch rq) = Respond code json ->
             (code = 200 /\ exists props, json = RecipeBody (JObject props))
             \/ ((code = 400 \/ code = 405 \/ code = 500)
                 /\ exists e, json = ErrorBody e)).
  { intros rq H. destruct (gateway_outcome_codes _ _ _ H) as [H1 | [-> H2]];
      [left; exact H1 | right; auto]. }
  destruct (OPENROUTER_API_KEY env) as [k |]; [destruct (str_truthy k) |];
    try apply G; intros H; injection H as <- <-; right; eauto.
Qed.

(** X3: whatever the gateway does, the handler answers with one of the
    four codes 200, 400, 405 and 500: with a recipe, which is an object,
    when the code is 200, and with an error message otherwise. *)
Theorem outcome_codes (fetch : GatewayRequest -> completion Response)
        (env : Env) (req : NextApiRequest)
        (code : N) (json : GenerateRecipeResponse) :
  serve msg fetch env req = Respond code json ->
  (code = 200 /\ exists props, json = RecipeBody (JObject props))
  \/ ((code = 400 \/ code = 405 \/ code = 500) /\ exists e, json = ErrorBody e).
Proof. apply serve_codes. Qed.

End HandlerPaths.

(* ================================================================== *)
(** * Further properties of Tier 1 *)
(* ================================================================== *)

Lemma fence_absent (s : jsstring) : ~ In 96 s -> exec fence_re s = None.
Proof.
  intros H. unfold exec. change (anchored fence_re) with false. cbv iota.
  rewrite <- (app_nil_r s). rewrite fence_not_before by exact H.
  reflexivity.
Qed.

Lemma indexOf_absent (s : jsstring) (c : char16) :
  ~ In c s -> indexOf s c = (-1)%Z.
Proof.
  induction s as [| d s IH]; intros H; [reflexivity |]. cbn [indexOf].
  destruct (d =? c) eqn:E.
  - apply N.eqb_eq in E. exfalso. apply H. left. exact E.
  - rewrite IH by (intros Hin; apply H; right; exact Hin). reflexivity.
Qed.

Lemma indexOf_first (pre rest : jsstring) (c : char16) :
  ~ In c pre -> indexOf (pre ++ c :: rest) c = Z.of_nat (List.length pre).
Proof.
  induction pre as [| d pre IH]; intros H.
  - cbn [app indexOf]. rewrite N.eqb_refl. reflexivity.
  - cbn [app indexOf]. destruct (d =? c) eqn:E.
    + apply N.eqb_eq in E. exfalso. apply H. left. exact E.
    + rewrite IH by (intros Hin; apply H; right; exact Hin).
      destruct (Z.of_nat (List.length pre) <? 0)%Z eqn:L.
      * apply Z.ltb_lt in L. lia.
      * cbn [List.length]. lia.
Qed.

Lemma lastIndexOf_absent (s : jsstring) (c : char16) :
  ~ In c s -> lastIndexOf s c = (-1)%Z.
Proof.
  induction s as [| d s IH]; intros H; [reflexivity |]. cbn [lastIndexOf].
  rewrite IH by (intros Hin; apply H; right; exact Hin).
  cbn [Z.leb Z.compare]. destruct (d =? c) eqn:E; [| reflexivity].
  apply N.eqb_eq in E. exfalso. apply H. left. exact E.
Qed.

Lemma lastIndexOf_final (x post : jsstring) (c : char16) :
  ~ In c post -> lastIndexOf (x ++ c :: post) c = Z.of_nat (List.length x).
Proof.
  intros H. induction x as [| d x IH].
  - cbn [app lastIndexOf]. rewrite (lastIndexOf_absent _ _ H).
    cbn [Z.leb Z.compare]. rewrite N.eqb_refl. reflexivity.
  - cbn [app lastIndexOf]. rewrite IH.
    destruct (0 <=? Z.of_nat (List.length x))%Z eqn:L.
    + cbn [List.length]. lia.
    + apply Z.leb_gt in L. lia.
Qed.

Lemma substring_middle (pre m post : jsstring) :
  substring (pre ++ m ++ post) (Z.of_nat (List.length pre))
            (Z.of_nat (List.length pre + List.length m))
  = m.
Proof.
  unfold substring. rewrite !length_app.
  set (a := List.length pre). set (b := List.length m). set (c := List.length post).
  replace (Z.max 0 (Z.min (Z.of_nat a) (Z.of_nat (a + (b + c)))))
    with (Z.of_nat a) by lia.
  replace (Z.max 0 (Z.min (Z.of_nat (a + b)) (Z.of_nat (a + (b + c)))))
    with (Z.of_nat (a + b)) by lia.
  replace (Z.min (Z.of_nat a) (Z.of_nat (a + b))) with (Z.of_nat a) by lia.
  replace (Z.max (Z.of_nat a) (Z.of_nat (a + b)) - Z.of_nat a)%Z
    with (Z.of_nat b) by lia.
  rewrite !Nat2Z.id. unfold a, b.
  rewrite skipn_app, skipn_all, Nat.sub_diag. cbn [app skipn].
  rewrite firstn_app, firstn_all, Nat.sub_diag. cbn [firstn]. apply app_nil_r.
Qed.

Lemma json_candidate_prose (pre mid post : jsstring) :
  ~ In 96 (pre ++ (123 :: mid ++ [125]) ++ post) ->
  ~ In 123 pre ->
  ~ In 125 post ->
  json_candidate (pre ++ (123 :: mid ++ [125]) ++ post)
  = Some (123 :: mid ++ [125]).
Proof.
  intros Hb Hpre Hpost. unfold json_candidate.
  rewrite (fence_absent _ Hb).
  set (obj := 123 :: mid ++ [125]).
  assert (I1 : indexOf (pre ++ obj ++ post) 123 = Z.of_nat (List.length pre)).
  { unfold obj. cbn [app]. apply indexOf_first. exact Hpre. }
  assert (I2 : lastIndexOf (pre ++ obj ++ post) 125
               = Z.of_nat (List.length pre + List.length obj - 1)).
  { unfold obj.
    replace (pre ++ (123 :: mid ++ [125]) ++ post)
      with ((pre ++ 123 :: mid) ++ 125 :: post)
      by (rewrite <- !app_assoc; cbn [app]; rewrite <- app_assoc; reflexivity).
    rewrite lastIndexOf_final by exact Hpost.
    f_equal. rewrite length_app. cbn [List.length]. rewrite length_app.
    cbn [List.length]. lia. }
  assert (L : (1 <= List.length obj)%nat) by (unfold obj; cbn [List.length]; lia).
  rewrite I1, I2.
  replace (Z.of_nat (List.length pre) =? -1)%Z with false
    by (symmetry; apply Z.eqb_neq; lia).
  replace (Z.of_nat (List.length pre + List.length obj - 1) =? -1)%Z with false
    by (symmetry; apply Z.eqb_neq; lia).
  cbn [negb andb].
  replace (Z.of_nat (List.length pre + List.length obj - 1) + 1)%Z
    with (Z.of_nat (List.length pre + List.length obj)) by lia.
  rewrite substring_middle. reflexivity.
Qed.

(** X7: in a completion without a backtick, the prose before the first
    opening brace and after the last closing brace is cut off. *)
Theorem prose_around_object_is_cut (pre mid post : jsstring) :
  ~ In 96 (pre ++ (123 :: mid ++ [125]) ++ post) ->
  ~ In 123 pre ->
  ~ In 125 post ->
  json_candidate (pre ++ (123 :: mid ++ [125]) ++ post)
  = Some (123 :: mid ++ [125]).
Proof. apply json_candidate_prose. Qed.

(** X8: a completion without a backtick that holds, between prose, the
    text of an object with a truthy title and arrays for its ingredients
    and instructions is answered 200 with the object as it was parsed. *)
Theorem well_formed_object_returned_as_parsed
        (pre mid post : jsstring) (recipe : JSValue) :
  ~ In 96 (pre ++ (123 :: mid ++ [125]) ++ post) ->
  ~ In 123 pre ->
  ~ In 125 post ->
  JSON_parse (123 :: mid ++ [125]) = Some recipe ->
  invalid_structure recipe = false ->
  isArray (named recipe (lit "ingredients")) = true ->
  isArray (named recipe (lit "instructions")) = true ->
  respond_from_content (JString (pre ++ (123 :: mid ++ [125]) ++ post))
  = Respond 200 (RecipeBody recipe).
Proof.
  intros Hb Hpre Hpost Hp Hv Hi Hs.
  cbn [respond_from_content]. unfold tier1.
  rewrite (json_candidate_prose _ _ _ Hb Hpre Hpost), Hp.
  unfold validate_and_coerce.
  destruct (valid_structure_object _ Hv) as [props ->].
  cbn [nullish]. rewrite Hv. unfold ensure_array. rewrite Hi, Hs. reflexivity.
Qed.

Lemma set_prop_keys (props : list (jsstring * JSValue)) (k : jsstring)
      (v : JSValue) :
  lookup k props <> JUndefined ->
  List.map fst (set_prop props k v) = List.map fst props.
Proof.
  induction props as [| [k' v'] rest IH]; cbn [lookup set_prop]; intros H.
  - congruence.
  - destruct (str_eqb k k'); cbn [List.map fst]; [reflexivity |].
    rewrite IH by exact H. reflexivity.
Qed.

Lemma ensure_array_result (k : jsstring) (props : list (jsstring * JSValue)) :
  lookup k props <> JUndefined ->
  exists props',
    ensure_array k (JObject props) = JObject props'
    /\ List.map fst props' = List.map fst props
    /\ lookup k props'
       = (if isArray (lookup k props) then lookup k props
          else JArray [lookup k props])
    /\ forall k', k' <> k -> lookup k' props' = lookup k' props.
Proof.
  intros H. unfold ensure_array. cbn [named].
  destruct (isArray (lookup k props)) eqn:A.
  - exists props. auto.
  - cbn [assign]. eexists. split; [reflexivity |]. split; [| split].
    + apply set_prop_keys. exact H.
    + apply lookup_set_same.
    + intros k' Hk. apply lookup_set_other. exact Hk.
Qed.

(** X9: what normalisation returns is the object it was given, with the
    same properties in the same order: ingredients and instructions are
    kept when they are arrays and wrapped into a one-element array when
    they are not, and every other property is untouched. *)
Theorem normalization_result (recipe out : JSValue) :
  validate_and_coerce recipe = Some out ->
  exists props props',
    recipe = JObject props /\ out = JObject props'
    /\ List.map fst props' = List.map fst props
    /\ lookup (lit "ingredients") props'
       = (if isArray (lookup (lit "ingredients") props)
          then lookup (lit "ingredients") props
          else JArray [lookup (lit "ingredients") props])
    /\ lookup (lit "instructions") props'
       = (if isArray (lookup (lit "instructions") props)
          then lookup (lit "instructions") props
          else JArray [lookup (lit "instructions") props])
    /\ forall k, k <> lit "ingredients" -> k <> lit "instructions" ->
                 lookup k props' = lookup k props.
Proof.
  unfold validate_and_coerce.
  destruct (nullish recipe); [discriminate |].
  destruct (invalid_structure recipe) eqn:Hv; [discriminate |].
  intros H. injection H as <-.
  destruct (valid_structure_object _ Hv) as [props ->].
  unfold invalid_structure in Hv. cbn [named] in Hv.
  apply orb_false_iff in Hv. destruct Hv as [Hv Hins].
  apply orb_false_iff in Hv. destruct Hv as [_ Hing].
  rewrite negb_false_iff in Hing, Hins.
  assert (N1 : lookup (lit "ingredients") props <> JUndefined)
    by (intros E; rewrite E in Hing; discriminate).
  assert (N2 : lookup (lit "instructions") props <> JUndefined)
    by (intros E; rewrite E in Hins; discriminate).
  destruct (ensure_array_result _ _ N1) as (p1 & -> & K1 & V1 & O1).
  assert (N2' : lookup (lit "instructions") p1 <> JUndefined).
  { rewrite O1 by (vm_compute; discriminate). exact N2. }
  destruct (ensure_array_result _ _ N2') as (p2 & -> & K2 & V2 & O2).
  exists props, p2. split; [reflexivity |]. split; [reflexivity |].
  split; [congruence |]. split; [| split].
  - rewrite O2 by (vm_compute; discriminate). exact V1.
  - rewrite V2. rewrite O1 by (vm_compute; discriminate). reflexivity.
  - intros k H1 H2. rewrite O2 by exact H2. apply O1. exact H1.
Qed.

(** X10: normalising what normalisation returned gives it back
    unchanged. *)
Theorem normalizing_twice_is_once (recipe out : JSValue) :
  validate_and_coerce recipe = Some out -> validate_and_coerce out = Some out.
Proof. apply validate_and_coerce_idempotent. Qed.

(** X11: a completion that lacks an opening or a closing brace gets
    nothing from Tier 1, whatever else it holds: it is answered 200 with
    the fallback recipe of the text, whose two lists are not empty and
    hold no empty entry. *)
Theorem braceless_completion_gets_fallback (text : jsstring) :
  ~ In 123 text \/ ~ In 125 text ->
  tier1 text = None
  /\ respond_from_content (JString text)
     = Respond 200 (RecipeBody (recipe_value (extractRecipeFromText text)))
  /\ nonempty_texts (ingredients (extractRecipeFromText text))
  /\ nonempty_texts (instructions (extractRecipeFromText text)).
Proof. apply braceless_falls_through. Qed.

(* ================================================================== *)
(** * Further properties of the fallback *)
(* ================================================================== *)

Lemma includes_false_not_in (arr : list jsstring) (x : jsstring) :
  includes arr x = false -> ~ In x arr.
Proof.
  unfold includes. intros H Hin.
  assert (E : existsb (str_eqb x) arr = true).
  { apply existsb_exists. exists x. split; [exact Hin | apply str_eqb_refl]. }
  congruence.
Qed.

Lemma push_new_nodup (acc : list jsstring) (cleaned : jsstring) :
  NoDup acc -> NoDup (push_new acc cleaned).
Proof.
  intros H. unfold push_new.
  destruct (str_truthy cleaned); cbn [andb]; [| exact H].
  destruct (includes acc cleaned) eqn:E; cbn [negb]; [exact H |].
  apply NoDup_app; [exact H | repeat constructor; intros [] | ].
  intros x Hx [<- | []]. apply (includes_false_not_in _ _ E Hx).
Qed.

(** What both loops keep of the array they build. *)
Lemma ingredients_loop_keeps (P : list jsstring -> Prop) :
  (forall acc line, P acc -> P (push_new acc (trim (replace_empty bullet_re (trim line))))) ->
  forall lines flag acc, P acc -> P (ingredients_loop lines flag acc).
Proof.
  intros Hp. induction lines as [| line rest IH]; intros flag acc H;
    cbn [ingredients_loop]; [exact H |].
  destruct (test ingredients_re (trim line)); [apply IH; exact H |].
  destruct (test sections_re (trim line)); [apply IH; exact H |].
  destruct (flag || test bullet_re (trim line)); apply IH;
    [apply Hp |]; exact H.
Qed.

Lemma instructions_loop_keeps (P : list jsstring -> Prop) :
  (forall acc line, P acc -> P (push_new acc (trim (replace_empty step_prefix_re (trim line))))) ->
  forall lines flag acc, P acc -> P (instructions_loop lines flag acc).
Proof.
  intros Hp. induction lines as [| line rest IH]; intros flag acc H;
    cbn [instructions_loop]; [exact H |].
  destruct (test sections_re (trim line)); [apply IH; exact H |].
  destruct (flag || test step_re (trim line)); apply IH;
    [apply Hp |]; exact H.
Qed.

(** X12: the fallback never lists an ingredient twice, nor an
    instruction. *)
Theorem fallback_lists_have_no_repeats (text : jsstring) :
  NoDup (ingredients (extractRecipeFromText text))
  /\ NoDup (instructions (extractRecipeFromText text)).
Proof.
  unfold extractRecipeFromText. cbn [ingredients instructions].
  assert (P : forall arr ph, NoDup arr -> NoDup (or_placeholder arr ph)).
  { intros [| a arr] ph H; cbn [or_placeholder]; [| exact H].
    repeat constructor. intros []. }
  split; apply P.
  - apply ingredients_loop_keeps; [| constructor].
    intros acc line. apply push_new_nodup.
  - apply instructions_loop_keeps; [| constructor].
    intros acc line. apply push_new_nodup.
Qed.

Lemma drop_while_head (p : char16 -> bool) (s : jsstring) :
  drop_while p s = []
  \/ exists c r, drop_while p s = c :: r /\ p c = false.
Proof.
  induction s as [| c s IH]; cbn [drop_while]; [left; reflexivity |].
  destruct (p c) eqn:E; [exact IH | right; eauto].
Qed.

Lemma drop_while_snoc (p : char16 -> bool) (s : jsstring) (c : char16) :
  p c = false -> drop_while p (s ++ [c]) = drop_while p s ++ [c].
Proof.
  intros H. induction s as [| d s IH]; cbn [app drop_while].
  - rewrite H. reflexivity.
  - destruct (p d); [exact IH | reflexivity].
Qed.

(** [trim] gives the empty string or a string without white space at
    either end. *)
Lemma trim_cases (s : jsstring) : trim s = [] \/ trimmed (trim s).
Proof.
  unfold trim.
  destruct (drop_while_head is_space s) as [-> | (c & r & -> & Hc)];
    [left; reflexivity | right].
  cbn [rev]. rewrite drop_while_snoc by exact Hc.
  rewrite rev_app_distr. cbn [rev app].
  split; [discriminate |]. split; [exact Hc |].
  destruct (drop_while_head is_space (rev r)) as [-> | (x & t & -> & Hx)].
  - exact Hc.
  - cbn [rev]. rewrite app_comm_cons, last_last. exact Hx.
Qed.

Lemma trim_idempotent (s : jsstring) : trim (trim s) = trim s.
Proof.
  destruct (trim_cases s) as [-> | H]; [reflexivity | apply trim_trimmed; exact H].
Qed.

Lemma push_new_trimmed (acc : list jsstring) (s : jsstring) :
  Forall (fun e => trim e = e) acc ->
  Forall (fun e => trim e = e) (push_new acc (trim s)).
Proof.
  intros H. unfold push_new.
  destruct (str_truthy (trim s) && negb (includes acc (trim s))); [| exact H].
  apply Forall_app. split; [exact H |].
  constructor; [apply trim_idempotent | constructor].
Qed.

(** X13: the title, every ingredient and every instruction of the fallback
    come without white space at either end. *)
Theorem fallback_texts_are_trimmed (text : jsstring) :
  trim (title (extractRecipeFromText text)) = title (extractRecipeFromText text)
  /\ Forall (fun e => trim e = e) (ingredients (extractRecipeFromText text))
  /\ Forall (fun e => trim e = e) (instructions (extractRecipeFromText text)).
Proof.
  unfold extractRecipeFromText. cbn [title ingredients instructions].
  assert (P : forall arr ph, trim ph = ph -> Forall (fun e => trim e = e) arr ->
                Forall (fun e => trim e = e) (or_placeholder arr ph)).
  { intros [| a arr] ph Hp H; cbn [or_placeholder]; [| exact H].
    repeat constructor. exact Hp. }
  split; [| split].
  - unfold extract_title.
    destruct (exec title_re text) as [m |].
    + destruct (m_group1 m); [apply trim_idempotent | reflexivity].
    + destruct (nonblank_lines text) as [| l0 rest]; [reflexivity |].
      destruct (str_truthy l0 && negb (includes_char l0 58));
        [apply trim_idempotent | reflexivity].
  - apply P; [reflexivity |].
    apply ingredients_loop_keeps; [| constructor].
    intros acc line. apply push_new_trimmed.
  - apply P; [reflexivity |].
    apply instructions_loop_keeps; [| constructor].
    intros acc line. apply push_new_trimmed.
Qed.

(** X14: when no line of the text is a section header, starts with a
    bullet or a number, or starts with "step" and a number, both lists are
    the single placeholder. *)
Theorem unrecognised_text_gives_placeholders (text : jsstring) :
  forallb unrecognised (nonblank_lines text) = true ->
  ingredients (extractRecipeFromText text)
  = [lit "Ingredients not clearly specified in the image"]
  /\ instructions (extractRecipeFromText text)
     = [lit "Instructions not clearly specified in the image"].
Proof.
  intros H. unfold extractRecipeFromText. cbn [ingredients instructions].
  assert (I : ingredients_loop (nonblank_lines text) false [] = []
              /\ instructions_loop (nonblank_lines text) false [] = []).
  { induction (nonblank_lines text) as [| line rest IH]; [split; reflexivity |].
    cbn [forallb] in H. apply andb_true_iff in H. destruct H as [Hl Hr].
    unfold unrecognised in Hl. rewrite !andb_true_iff, !negb_true_iff in Hl.
    destruct Hl as (((H1 & H2) & H3) & H4).
    cbn [ingredients_loop instructions_loop].
    rewrite H1, H2, H3, H4. cbn [orb]. apply IH. exact Hr. }
  destruct I as [-> ->]. split; reflexivity.
Qed.

Lemma drop_while_all (p : char16 -> bool) (s : jsstring) :
  Forall (fun c => p c = true) s -> drop_while p s = [].
Proof.
  induction 1 as [| c s Hc _ IH]; cbn [drop_while]; [reflexivity |].
  rewrite Hc. exact IH.
Qed.

Lemma trim_blank (s : jsstring) :
  Forall (fun c => is_space c = true) s -> trim s = [].
Proof. intros H. unfold trim. rewrite (drop_while_all _ _ H). reflexivity. Qed.

Lemma split_nl_forall (P : char16 -> Prop) (s : jsstring) :
  Forall P s -> Forall (Forall P) (split_nl s).
Proof.
  induction 1 as [| c s Hc _ IH]; cbn [split_nl]; [repeat constructor |].
  destruct (c =? 10); [constructor; [constructor | exact IH] |].
  destruct (split_nl s) as [| l ls]; [repeat constructor; exact Hc |].
  inversion IH; subst. constructor; [constructor; assumption | assumption].
Qed.

Lemma nonblank_lines_blank (text : jsstring) :
  Forall (fun c => is_space c = true) text -> nonblank_lines text = [].
Proof.
  intros H. unfold nonblank_lines.
  pose proof (split_nl_forall _ _ H) as L.
  induction L as [| l ls Hl _ IH]; cbn [filter]; [reflexivity |].
  rewrite (trim_blank _ Hl). exact IH.
Qed.

Lemma seq_of_head_fails (p : char16 -> bool) (ps : list (char16 -> bool))
      (c : char16) (t : jsstring) (cap : option jsstring)
      {A} (k : jsstring -> option jsstring -> option A) :
  p c = false -> run (seq_of (p :: ps)) (c :: t) cap k = None.
Proof. intros H. destruct ps; cbn [seq_of run]; rewrite H; reflexivity. Qed.

Lemma seq_of_nil_fails (p : char16 -> bool) (ps : list (char16 -> bool))
      (cap : option jsstring)
      {A} (k : jsstring -> option jsstring -> option A) :
  run (seq_of (p :: ps)) [] cap k = None.
Proof. destruct ps; reflexivity. Qed.

(** The label pattern starts on one of the letters t, d and r. *)
Lemma title_re_first_letter (s : jsstring) :
  match s with
  | [] => True
  | c :: _ => ci 116 c = false /\ ci 100 c = false /\ ci 114 c = false
  end ->
  match_here (expr title_re) s = None.
Proof.
  intros H. unfold match_here, title_re. cbn [expr run].
  change (word_ci "title") with (seq_of (ci 116 :: List.map ci (lit "itle"))).
  change (word_ci "dish") with (seq_of (ci 100 :: List.map ci (lit "ish"))).
  change (word_ci "recipe") with (seq_of (ci 114 :: List.map ci (lit "ecipe"))).
  destruct s as [| c t].
  - rewrite !seq_of_nil_fails. reflexivity.
  - destruct H as (H1 & H2 & H3).
    rewrite !seq_of_head_fails by assumption. reflexivity.
Qed.

Lemma space_not_label_letter (c : char16) :
  is_space c = true ->
  ci 116 c = false /\ ci 100 c = false /\ ci 114 c = false.
Proof.
  unfold is_space, in_range, ci. intros H.
  repeat (rewrite ?orb_true_iff, ?andb_true_iff, ?N.eqb_eq, ?N.leb_le in H).
  repeat split;
    (match goal with
     | |- ?b = false =>
         destruct b eqn:E; [exfalso | reflexivity];
         rewrite orb_true_iff, !N.eqb_eq in E; lia
     end).
Qed.

Lemma title_re_absent_in_blank (text before : jsstring) :
  Forall (fun c => is_space c = true) text ->
  search (expr title_re) before text = None.
Proof.
  intros H. revert before.
  induction H as [| c t Hc _ IH]; intros before; cbn [search].
  - rewrite title_re_first_letter by exact I. reflexivity.
  - rewrite title_re_first_letter by (apply space_not_label_letter; exact Hc).
    apply IH.
Qed.

(** X15: a text of white space only (the empty text too) gives the default
    recipe: the default title and the two placeholders. *)
Theorem blank_text_gives_default_recipe (text : jsstring) :
  Forall (fun c => is_space c = true) text ->
  extractRecipeFromText text
  = {| title := lit "Delicious Recipe";
       description := lit "Recipe generated from image analysis";
       ingredients := [lit "Ingredients not clearly specified in the image"];
       instructions := [lit "Instructions not clearly specified in the image"];
       prepTime := Some (lit "30 minutes");
       cookTime := Some (lit "30 minutes");
       servings := Some (lit "4 servings");
       difficulty := Some (lit "Medium") |}.
Proof.
  intros H. unfold extractRecipeFromText, extract_title, exec.
  change (anchored title_re) with false. cbv iota.
  rewrite (title_re_absent_in_blank _ _ H), (nonblank_lines_blank _ H).
  reflexivity.
Qed.

(** X16: a text that opens with the label "title" in any letter case, a
    colon, white space and a name, the name ending the text or its line,
    gets that name for its title. *)
Theorem leading_label_gives_title (label ws name tail : jsstring) :
  Forall2 (fun p c => ci p c = true) (lit "title") label ->
  Forall (fun c => is_space c = true) ws ->
  trimmed name ->
  Forall (fun c => dot c = true) name ->
  tail = [] \/ (exists t, tail = 10 :: t) ->
  title (extractRecipeFromText (label ++ 58 :: ws ++ name ++ tail)) = name.
Proof.
  intros Hl Hws Hname Hdot Htail.
  assert (M : match_here (expr title_re) (label ++ 58 :: ws ++ name ++ tail)
              = Some (Some name, tail)).
  { change (lit "title") with [116; 105; 116; 108; 101] in Hl.
    inversion Hl as [| ? l1 ? ? C1 Hl1]; subst.
    inversion Hl1 as [| ? l2 ? ? C2 Hl2]; subst.
    inversion Hl2 as [| ? l3 ? ? C3 Hl3]; subst.
    inversion Hl3 as [| ? l4 ? ? C4 Hl4]; subst.
    inversion Hl4 as [| ? l5 ? ? C5 Hl5]; subst.
    inversion Hl5; subst.
    unfold match_here, title_re. cbn [expr run app].
    change (word_ci "title")
      with (Seq (Cls (ci 116)) (Seq (Cls (ci 105)) (Seq (Cls (ci 116))
              (Seq (Cls (ci 108)) (Cls (ci 101)))))).
    cbn [run]. rewrite C1, C2, C3, C4, C5.
    change (one 58 58) with true. cbv iota.
    assert (T : star_greedy is_space (ws ++ name ++ tail)
                  (fun s' =>
                     match s' with
                     | [] => None
                     | c :: t =>
                         if dot c
                         then star_greedy dot t
                                (fun s'0 =>
                                   Some (Some (firstn (List.length s' - List.length s'0) s'),
                                         s'0))
                         else None
                     end)
                = Some (Some name, tail)).
    { apply star_greedy_app; [exact Hws |].
      destruct Hname as (Hne & Hh & _).
      destruct name as [| c n]; [congruence |]. cbn [hd] in Hh.
      cbn [app]. rewrite star_greedy_stop by exact Hh.
      inversion Hdot as [| ? ? Dc Dn]; subst. rewrite Dc.
      apply star_greedy_app; [exact Dn |].
      assert (F : firstn (List.length (c :: n ++ tail) - List.length tail)
                         (c :: n ++ tail) = c :: n).
      { change (c :: n ++ tail) with ((c :: n) ++ tail).
        rewrite length_app, Nat.add_sub, firstn_app, firstn_all, Nat.sub_diag.
        cbn [firstn]. apply app_nil_r. }
      destruct Htail as [-> | [t ->]].
      - cbn [star_greedy]. rewrite F. reflexivity.
      - rewrite star_greedy_stop by reflexivity. rewrite F. reflexivity. }
    rewrite T. reflexivity. }
  unfold extractRecipeFromText. cbn [title]. unfold extract_title, exec.
  change (anchored title_re) with false. cbv iota.
  assert (S : search (expr title_re) [] (label ++ 58 :: ws ++ name ++ tail)
              = Some {| m_before := []; m_group1 := Some name; m_after := tail |}).
  { destruct (label ++ 58 :: ws ++ name ++ tail); cbn [search]; rewrite M;
      reflexivity. }
  rewrite S. cbn [m_group1]. apply trim_trimmed. exact Hname.
Qed.

(** ** Labelled steps *)







(* ================================================================== *)
(** * Properties of the page *)
(* ================================================================== *)

Lemma startsWith_image (s : jsstring) :
  Home.startsWith s (lit "image/") = true <-> exists r, s = lit "image/" ++ r.
Proof.
  unfold Home.startsWith.
  change (lit "image/") with [105; 109; 97; 103; 101; 47].
  split.
  - destruct s as [| c1 [| c2 [| c3 [| c4 [| c5 [| c6 r]]]]]];
      cbn [strip_prefix]; try discriminate;
      repeat match goal with
             | |- context [if ?a =? ?b then _ else _] =>
                 destruct (N.eqb_spec a b); [subst | discriminate]
             end;
      try discriminate.
    intros _. exists r. reflexivity.
  - intros [r ->]. reflexivity.
Qed.

(** X19: an upload is handed to the reader exactly when its type starts
    with "image/" and its size is at most 10 * 1024 * 1024 bytes; a file
    that is no image is refused as such whatever its size. *)
Theorem upload_accepted_iff (st : Home.State) (f : Home.File) :
  (Home.handleImageUpload st f = Home.ReadAsDataURL f
   <-> ((exists r, Home.type f = lit "image/" ++ r) /\ Home.size f <= 10485760))
  /\ ((forall r, Home.type f <> lit "image/" ++ r) ->
      Home.handleImageUpload st f
      = Home.Refused (Home.set_upload_error st (lit "Please select an image file"))).
Proof.
  unfold Home.handleImageUpload.
  destruct (Home.startsWith (Home.type f) (lit "image/")) eqn:S; cbn [negb].
  - apply startsWith_image in S.
    change (10 * 1024 * 1024) with 10485760.
    destruct (10485760 <? Home.size f) eqn:L.
    + apply N.ltb_lt in L. split.
      * split; [discriminate | intros [_ H]; lia].
      * intros H. destruct S as [r Hr]. exfalso. apply (H r Hr).
    + apply N.ltb_ge in L. split.
      * split; [intros _; split; assumption | reflexivity].
      * intros H. destruct S as [r Hr]. exfalso. apply (H r Hr).
  - split; [| reflexivity].
    split; [discriminate |]. intros [H _].
    apply startsWith_image in H. congruence.
Qed.

(** X20: a refused upload changes nothing but the message under the
    upload area: the image that was selected before, its preview, the
    recipe on display and the page's error stay as they were. *)
Theorem refused_upload_keeps_image (st st' : Home.State) (f : Home.File) :
  Home.handleImageUpload st f = Home.Refused st' ->
  Home.file (Home.imageState st') = Home.file (Home.imageState st)
  /\ Home.preview (Home.imageState st') = Home.preview (Home.imageState st)
  /\ Home.recipe st' = Home.recipe st
  /\ Home.pageError st' = Home.pageError st
  /\ Home.loadingState st' = Home.loadingState st
  /\ Home.error (Home.imageState st') <> None.
Proof.
  unfold Home.handleImageUpload.
  destruct (negb _); [| destruct (_ <? _)]; intros H; try discriminate;
    injection H as <-; cbn; repeat split; discriminate.
Qed.

Lemma split_char_line (c : char16) (s : jsstring) :
  ~ In c s -> Home.split_char c s = [s].
Proof.
  induction s as [| d s IH]; intros H; [reflexivity |].
  cbn [Home.split_char]. destruct (d =? c) eqn:E.
  - apply N.eqb_eq in E. exfalso. apply H. left. exact E.
  - rewrite IH; [reflexivity |]. intros Hin. apply H. right. exact Hin.
Qed.

Lemma split_char_app (c : char16) (l s : jsstring) :
  ~ In c l -> Home.split_char c (l ++ c :: s) = l :: Home.split_char c s.
Proof.
  induction l as [| d l IH]; intros H.
  - cbn [app Home.split_char]. rewrite N.eqb_refl. reflexivity.
  - cbn [app Home.split_char]. destruct (d =? c) eqn:E.
    + apply N.eqb_eq in E. exfalso. apply H. left. exact E.
    + rewrite IH; [reflexivity |]. intros Hin. apply H. right. exact Hin.
Qed.

(** X21: of a data URL, a prefix without a comma, a comma and a payload
    without a comma, the image that is posted is the payload; of a preview
    without any comma it is [undefined]. *)
Theorem base64Image_of_data_url (prefix payload : jsstring) :
  ~ In 44 prefix ->
  ~ In 44 payload ->
  Home.base64Image (prefix ++ 44 :: payload) = Some payload
  /\ Home.base64Image prefix = None.
Proof.
  intros H1 H2. unfold Home.base64Image.
  rewrite split_char_app by exact H1.
  rewrite !split_char_line by assumption. split; reflexivity.
Qed.

(** X22: once the reader has loaded a data URL, a prefix without a comma,
    a comma and a payload without a comma, [generateRecipe] posts the
    payload and clears the recipe and the error; once the image has been
    removed it posts nothing and asks for an image. *)
Theorem upload_then_generate (st : Home.State) (f : Home.File)
        (prefix payload : jsstring) :
  ~ In 44 prefix ->
  ~ In 44 payload ->
  (exists st1,
     Home.generateRecipe (Home.onload st f (prefix ++ 44 :: payload))
     = Home.Posted st1 (Some payload)
     /\ Home.recipe st1 = None /\ Home.pageError st1 = None
     /\ Home.isLoading (Home.loadingState st1) = true)
  /\ (exists st2,
        Home.generateRecipe (Home.removeImage st) = Home.NotPosted st2
        /\ Home.pageError st2 = Some (lit "Please upload an image first")).
Proof.
  intros H1 H2. split.
  - assert (T : str_truthy (prefix ++ 44 :: payload) = true)
      by (destruct prefix; reflexivity).
    unfold Home.generateRecipe, Home.onload.
    cbn [Home.imageState Home.file Home.preview]. rewrite T.
    unfold Home.base64Image. rewrite split_char_app by exact H1.
    rewrite split_char_line by exact H2.
    eexists. repeat split.
  - eexists. split; reflexivity.
Qed.

Section PageRuns.

Variable msg : JSValue -> jsstring -> jsstring.
Variable ToString : JSValue -> jsstring.

(** X23: [generateRecipe] posts only when a file is selected and its
    preview is not empty; once the request has settled, however it did,
    the page is no longer loading, the selected image is untouched, and
    either a truthy recipe is set and no error, or an error is set and no
    recipe. *)
Theorem generate_sets_recipe_or_error
        (st st1 : Home.State) (image : option jsstring)
        (fetched : completion Response) :
  Home.generateRecipe st = Home.Posted st1 image ->
  (exists f p,
     Home.file (Home.imageState st) = Some f
     /\ Home.preview (Home.imageState st) = Some p
     /\ p <> [] /\ image = Home.base64Image p)
  /\ Home.isLoading (Home.loadingState (Home.finish msg ToString fetched st1))
     = false
  /\ Home.imageState (Home.finish msg ToString fetched st1) = Home.imageState st
  /\ ((exists r,
         Home.recipe (Home.finish msg ToString fetched st1) = Some r
         /\ truthy r = true
         /\ Home.pageError (Home.finish msg ToString fetched st1) = None)
      \/ (Home.recipe (Home.finish msg ToString fetched st1) = None
          /\ exists m,
               Home.pageError (Home.finish msg ToString fetched st1) = Some m)).
Proof.
  unfold Home.generateRecipe.
  destruct (Home.file (Home.imageState st)) as [f |]; [| discriminate].
  destruct (Home.preview (Home.imageState st)) as [p |]; [| discriminate].
  destruct (str_truthy p) eqn:Hp; [| discriminate].
  intros H. injection H as <- <-.
  split.
  { exists f, p. repeat split. intros ->. discriminate. }
  unfold Home.finish.
  destruct (Home.settle msg ToString fetched) as [r | e] eqn:S; cbn.
  - repeat split. left. exists r. repeat split.
    unfold Home.settle in S.
    destruct fetched as [resp | e0]; cbn [bind] in S; [| discriminate].
    destruct (json_result resp) as [data | e0]; cbn [bind] in S; [| discriminate].
    destruct (ok resp); cbn [negb] in S.
    + unfold get in S. destruct (nullish data); cbn [bind] in S; [discriminate |].
      destruct (truthy (named data (lit "recipe"))) eqn:T; [| discriminate].
      injection S as <-. exact T.
    + unfold get in S. destruct (nullish data); cbn [bind] in S; discriminate.
  - repeat split. right. split; [reflexivity | eauto].
Qed.

(** What the page makes of an answer of the route. *)
Lemma settle_carried (r : Response) (code : N) (json : GenerateRecipeResponse) :
  Home.carries r (Respond code json) ->
  (code = 200 /\ exists props, json = RecipeBody (JObject props))
  \/ ((code = 400 \/ code = 405 \/ code = 500) /\ exists e, json = ErrorBody e) ->
  Home.settle msg ToString (Normal r)
  = match json with
    | RecipeBody rec => Normal rec
    | ErrorBody e =>
        Throw (ErrorObject
                 (if str_truthy e then e else lit "Failed to generate recipe"))
    end.
Proof.
  intros (Hok & _ & Hjson) Hc. unfold Home.settle. cbn [bind].
  rewrite Hjson, Hok. cbn [bind].
  destruct Hc as [(-> & props & ->) | (Hcode & e & ->)].
  - reflexivity.
  - assert (S : Home.is_success code = false)
      by (destruct Hcode as [-> | [-> | ->]]; reflexivity).
    rewrite S. cbn [negb Home.response_json]. unfold get. cbn [nullish bind named].
    change (lookup (lit "error") [(lit "error", JString e)]) with (JString e).
    cbn [truthy]. destruct (str_truthy e); reflexivity.
Qed.

Lemma finish_carried
        (fetch : GatewayRequest -> completion Response)
        (env : Env) (req : NextApiRequest) (r : Response) (st : Home.State) :
  Home.carries r (serve msg fetch env req) ->
  match serve msg fetch env req with
  | Respond _ (RecipeBody rec) =>
      Home.recipe (Home.finish msg ToString (Normal r) st) = Some rec
      /\ Home.pageError (Home.finish msg ToString (Normal r) st)
         = Home.pageError st
  | Respond _ (ErrorBody e) =>
      Home.recipe (Home.finish msg ToString (Normal r) st) = Home.recipe st
      /\ Home.pageError (Home.finish msg ToString (Normal r) st)
         = Some (if str_truthy e then e else lit "Failed to generate recipe")
  end.
Proof.
  intros Hc.
  destruct (serve msg fetch env req) as [code json] eqn:E.
  pose proof (serve_codes msg fetch env req code json E) as Hcodes.
  unfold Home.finish. rewrite (settle_carried _ _ _ Hc Hcodes).
  destruct json; cbn; split; reflexivity.
Qed.

(** X24: end to end, the page shows a recipe exactly when the route
    answered with one, and that recipe; otherwise it shows the route's
    error message, or "Failed to generate recipe" when that message is
    empty. *)
Theorem page_shows_what_route_answered
        (fetch : GatewayRequest -> completion Response)
        (env : Env) (req : NextApiRequest) (r : Response) (st : Home.State) :
  Home.carries r (serve msg fetch env req) ->
  match serve msg fetch env req with
  | Respond _ (RecipeBody rec) =>
      Home.recipe (Home.finish msg ToString (Normal r) st) = Some rec
      /\ Home.pageError (Home.finish msg ToString (Normal r) st)
         = Home.pageError st
  | Respond _ (ErrorBody e) =>
      Home.recipe (Home.finish msg ToString (Normal r) st) = Home.recipe st
      /\ Home.pageError (Home.finish msg ToString (Normal r) st)
         = Some (if str_truthy e then e else lit "Failed to generate recipe")
  end.
Proof. apply finish_carried. Qed.

(** X25: a preview without a comma posts no image; the route answers 400
    without calling the gateway, and the page shows "Image is
    required". *)
Theorem preview_without_comma_is_refused
        (fetch : GatewayRequest -> completion Response) (env : Env)
        (st st1 : Home.State) (r : Response) :
  Home.generateRecipe st = Home.Posted st1 None ->
  Home.carries r (serve msg fetch env (post (Home.request_body None))) ->
  invokes_gateway (handler msg env (post (Home.request_body None))) = false
  /\ Home.recipe (Home.finish msg ToString (Normal r) st1) = None
  /\ Home.pageError (Home.finish msg ToString (Normal r) st1)
     = Some (lit "Image is required").
Proof.
  intros Hg Hc.
  assert (S : serve msg fetch env (post (Home.request_body None))
              = Respond 400 (ErrorBody (lit "Image is required")))
    by reflexivity.
  split; [reflexivity |].
  pose proof (finish_carried fetch env _ r st1 Hc) as P.
  rewrite S in P. destruct P as [P1 P2].
  split; [| exact P2].
  rewrite P1. unfold Home.generateRecipe in Hg.
  destruct (Home.file (Home.imageState st)); [| discriminate].
  destruct (Home.preview (Home.imageState st)) as [p |]; [| discriminate].
  destruct (str_truthy p); [| discriminate].
  injection Hg as <- _. reflexivity.
Qed.

End PageRuns.

(* ================================================================== *)
(** * Instances *)
(* ================================================================== *)

Ltac not_in := let H := fresh in intros H; vm_compute in H; intuition discriminate.

Lemma missing_key_is_configuration_error_witness :
  env_truthy (OPENROUTER_API_KEY empty_key_env) = false
  /\ handler v8_type_error_message empty_key_env
       (post (image_body data_url_payload))
     = Done (Respond 500 (ErrorBody (lit "API configuration error"))).
Proof.
  split; [reflexivity |].
  apply (missing_key_is_configuration_error v8_type_error_message
           empty_key_env (post (image_body data_url_payload)));
    reflexivity.
Defined.

Lemma outcome_codes_witness :
  serve v8_type_error_message pasta_gateway sample_env
    (post (image_body data_url_payload))
  = Respond 200 (RecipeBody (recipe_value (extractRecipeFromText pasta_text)))
  /\ ((200 = 200
       /\ exists props,
            RecipeBody (recipe_value (extractRecipeFromText pasta_text))
            = RecipeBody (JObject props))
      \/ ((200 = 400 \/ 200 = 405 \/ 200 = 500)
          /\ exists e,
               RecipeBody (recipe_value (extractRecipeFromText pasta_text))
               = ErrorBody e)).
Proof.
  assert (H : serve v8_type_error_message pasta_gateway sample_env
                (post (image_body data_url_payload))
              = Respond 200
                  (RecipeBody (recipe_value (extractRecipeFromText pasta_text))))
    by (vm_compute; reflexivity).
  split; [exact H |].
  exact (outcome_codes v8_type_error_message pasta_gateway sample_env _ _ _ H).
Defined.

Lemma failed_reply_is_service_error_witness :
  ok unavailable = false
  /\ gateway_outcome v8_type_error_message (Normal unavailable)
     = Respond 500
         (ErrorBody (lit "Failed to generate recipe: 503 Service Unavailable")).
Proof.
  split; [reflexivity |].
  exact (failed_reply_is_service_error v8_type_error_message unavailable eq_refl).
Defined.

Lemma completion_content_decides_witness :
  lacks_completion
    (JObject [(lit "choices",
               JArray [JObject [(lit "message",
                                 JObject [(lit "content", JNumber 5 0)])]])])
  = false
  /\ gateway_outcome v8_type_error_message
       (Normal (completion_reply (JNumber 5 0)))
     = Respond 500 (ErrorBody (lit "Failed to parse recipe from AI response")).
Proof.
  split; [reflexivity |].
  apply (proj2 (completion_content_decides v8_type_error_message
                  (completion_reply (JNumber 5 0)) _
                  eq_refl eq_refl eq_refl eq_refl)).
  intros text. discriminate.
Defined.

Lemma unreadable_reply_body_witness :
  ok null_reply = true
  /\ gateway_outcome v8_type_error_message (Normal null_reply)
     = Respond 500
         (ErrorBody (lit "Cannot read properties of null (reading 'choices')")).
Proof.
  split; [reflexivity |].
  exact (proj1 (unreadable_reply_body v8_type_error_message null_reply eq_refl)
           JNull eq_refl eq_refl).
Defined.

Lemma prose_around_object_is_cut_witness :
  ~ In 123 (lit "Sure! ")
  /\ json_candidate prose_wrapped_recipe
     = Some (123 :: array_recipe_members ++ [125]).
Proof.
  split; [not_in |].
  apply (prose_around_object_is_cut (lit "Sure! ") array_recipe_members
           (lit " Enjoy.")); not_in.
Defined.

Lemma well_formed_object_returned_as_parsed_witness :
  JSON_parse (123 :: array_recipe_members ++ [125]) = Some normal_recipe
  /\ respond_from_content (JString prose_wrapped_recipe)
     = Respond 200 (RecipeBody normal_recipe).
Proof.
  split; [vm_compute; reflexivity |].
  apply (well_formed_object_returned_as_parsed (lit "Sure! ")
           array_recipe_members (lit " Enjoy.") normal_recipe);
    try not_in; vm_compute; reflexivity.
Defined.

Lemma normalization_result_witness :
  validate_and_coerce scalar_recipe = Some normal_recipe
  /\ exists props props',
      scalar_recipe = JObject props /\ normal_recipe = JObject props'
      /\ List.map fst props' = List.map fst props
      /\ lookup (lit "ingredients") props'
         = (if isArray (lookup (lit "ingredients") props)
            then lookup (lit "ingredients") props
            else JArray [lookup (lit "ingredients") props])
      /\ lookup (lit "instructions") props'
         = (if isArray (lookup (lit "instructions") props)
            then lookup (lit "instructions") props
            else JArray [lookup (lit "instructions") props])
      /\ forall k, k <> lit "ingredients" -> k <> lit "instructions" ->
                   lookup k props' = lookup k props.
Proof.
  split; [reflexivity |].
  exact (normalization_result scalar_recipe normal_recipe eq_refl).
Defined.

Lemma normalizing_twice_is_once_witness :
  validate_and_coerce scalar_recipe = Some normal_recipe
  /\ validate_and_coerce normal_recipe = Some normal_recipe.
Proof.
  split; [reflexivity |].
  exact (normalizing_twice_is_once scalar_recipe normal_recipe eq_refl).
Defined.

Lemma braceless_completion_gets_fallback_witness :
  ~ In 123 pasta_text
  /\ respond_from_content (JString pasta_text)
     = Respond 200 (RecipeBody (recipe_value (extractRecipeFromText pasta_text))).
Proof.
  split; [not_in |].
  apply (braceless_completion_gets_fallback pasta_text). left. not_in.
Defined.

Lemma unrecognised_text_gives_placeholders_witness :
  forallb unrecognised (nonblank_lines (lit "A lovely plate of food.")) = true
  /\ ingredients (extractRecipeFromText (lit "A lovely plate of food."))
     = [lit "Ingredients not clearly specified in the image"].
Proof.
  split; [vm_compute; reflexivity |].
  apply (unrecognised_text_gives_placeholders (lit "A lovely plate of food.")).
  vm_compute. reflexivity.
Defined.

Lemma blank_text_gives_default_recipe_witness :
  Forall (fun c => is_space c = true) [32; 10; 9]
  /\ title (extractRecipeFromText [32; 10; 9]) = lit "Delicious Recipe".
Proof.
  assert (H : Forall (fun c => is_space c = true) [32; 10; 9])
    by (repeat constructor).
  split; [exact H |].
  rewrite (blank_text_gives_default_recipe [32; 10; 9] H). reflexivity.
Defined.

Lemma leading_label_gives_title_witness :
  trimmed (lit "Pasta")
  /\ title (extractRecipeFromText
              (lit "TITLE" ++ 58 :: [32] ++ lit "Pasta" ++ 10 :: lit "Ingredients"))
     = lit "Pasta".
Proof.
  assert (T : trimmed (lit "Pasta"))
    by (split; [discriminate | split; reflexivity]).
  split; [exact T |].
  apply (leading_label_gives_title (lit "TITLE") [32] (lit "Pasta")
           (10 :: lit "Ingredients")).
  - repeat constructor.
  - repeat constructor.
  - exact T.
  - repeat constructor.
  - right. eexists. reflexivity.
Defined.



Lemma refused_upload_keeps_image_witness :
  Home.handleImageUpload selected_page text_file
  = Home.Refused
      (Home.set_upload_error selected_page (lit "Please select an image file"))
  /\ Home.preview
       (Home.imageState
          (Home.set_upload_error selected_page (lit "Please select an image file")))
     = Home.preview (Home.imageState selected_page).
Proof.
  split; [reflexivity |].
  exact (proj1 (proj2 (refused_upload_keeps_image selected_page _ text_file
                         eq_refl))).
Defined.

Lemma base64Image_of_data_url_witness :
  ~ In 44 data_url_prefix
  /\ Home.base64Image (data_url_prefix ++ 44 :: data_url_payload)
     = Some data_url_payload.
Proof.
  split; [not_in |].
  apply (base64Image_of_data_url data_url_prefix data_url_payload); not_in.
Defined.

Lemma upload_then_generate_witness :
  ~ In 44 data_url_payload
  /\ exists st1,
      Home.generateRecipe
        (Home.onload Home.initial png_file
           (data_url_prefix ++ 44 :: data_url_payload))
      = Home.Posted st1 (Some data_url_payload)
      /\ Home.recipe st1 = None /\ Home.pageError st1 = None
      /\ Home.isLoading (Home.loadingState st1) = true.
Proof.
  split; [not_in |].
  apply (upload_then_generate Home.initial png_file
           data_url_prefix data_url_payload); not_in.
Defined.

Lemma generate_sets_recipe_or_error_witness :
  Home.generateRecipe selected_page
  = Home.Posted posted_page (Some data_url_payload)
  /\ Home.isLoading
       (Home.loadingState
          (Home.finish v8_type_error_message object_ToString
             (Throw (ErrorObject (lit "Failed to fetch"))) posted_page))
     = false.
Proof.
  split; [reflexivity |].
  exact (proj1 (proj2 (generate_sets_recipe_or_error
                         v8_type_error_message object_ToString
                         selected_page posted_page (Some data_url_payload)
                         (Throw (ErrorObject (lit "Failed to fetch")))
                         eq_refl))).
Defined.

Lemma page_shows_what_route_answered_witness :
  Home.carries
    (delivered (serve v8_type_error_message pasta_gateway sample_env
                  (post (image_body data_url_payload))))
    (serve v8_type_error_message pasta_gateway sample_env
       (post (image_body data_url_payload)))
  /\ Home.recipe
       (Home.finish v8_type_error_message object_ToString
          (Normal (delivered (serve v8_type_error_message pasta_gateway sample_env
                                (post (image_body data_url_payload)))))
          posted_page)
     = Some (recipe_value (extractRecipeFromText pasta_text)).
Proof.
  assert (C : Home.carries
                (delivered (serve v8_type_error_message pasta_gateway sample_env
                              (post (image_body data_url_payload))))
                (serve v8_type_error_message pasta_gateway sample_env
                   (post (image_body data_url_payload))))
    by (vm_compute; repeat split).
  split; [exact C |].
  exact (proj1 (page_shows_what_route_answered
                  v8_type_error_message object_ToString
                  pasta_gateway sample_env
                  (post (image_body data_url_payload)) _ posted_page C)).
Defined.

Lemma preview_without_comma_is_refused_witness :
  Home.generateRecipe comma_less_page = Home.Posted comma_less_posted None
  /\ Home.pageError
       (Home.finish v8_type_error_message object_ToString
          (Normal (delivered
                     (serve v8_type_error_message pasta_gateway sample_env
                        (post (Home.request_body None)))))
          comma_less_posted)
     = Some (lit "Image is required").
Proof.
  split; [reflexivity |].
  refine (proj2 (proj2 (preview_without_comma_is_refused
                          v8_type_error_message object_ToString
                          pasta_gateway sample_env
                          comma_less_page comma_less_posted _ eq_refl _))).
  vm_compute. repeat split.
Defined.

Lemma gateway_called_iff_witness :
  invokes_gateway
    (handler v8_type_error_message sample_env
       (post (image_body data_url_payload)))
  = true.
Proof.
  apply (proj2 (gateway_called_iff v8_type_error_message sample_env
                  (post (image_body data_url_payload)))).
  repeat split.
Defined.

Lemma upload_accepted_iff_witness :
  Home.handleImageUpload selected_page png_file = Home.ReadAsDataURL png_file.
Proof.
  apply (proj2 (proj1 (upload_accepted_iff selected_page png_file))).
  split; [exists (lit "png"); reflexivity | discriminate].
Defined.
